(** * es-optimize: the shard optimiser of [elasticsearch.py]

    A shallow embedding of [Connection] and [IndexOptimizer] and the
    properties of the resharding workflow ([index_replace]) and of the
    sizing driver ([index_optimize_shards]).

    Conventions of the embedding.
    - Python [int] is [Z].
    - [a / b] on ints is Python's true division: the double nearest to
      the exact quotient, a tie going to the even significand.  A double
      is modelled by the rational it denotes, and [binary64] rounds a
      rational to the nearest double, with 53 bits of significand and an
      exponent that is not bounded: it is the value CPython computes for
      every quotient of magnitude between 2^-1022 and 2^1024, which
      covers the quotients of 64-bit sizes and counts; beyond 2^1024
      CPython raises [OverflowError], which is outside the model.
      [round] of a double and the comparison of a double with an int are
      exact in CPython, and so are they here.
    - An HTTP exchange is one [Call] appended to the log of the [World];
      what the cluster answers is read from a [Cluster], a function of
      the whole history, so that nothing is assumed on how the answers
      depend on what was sent.
    - The decoded JSON answers are records: every fetch is answered by
      a body that holds the keys the program reads, under the name it
      asked for.  A body without them (an error body, or one keyed by
      the concrete index when the name is an alias) makes the program
      raise [KeyError] at the subscript; such answers are outside the
      model, and no statement below is about them. *)

From Stdlib Require Import ZArith QArith Qround Qabs Qpower Lia Lqa.
From stdpp Require Import gmap strings list pretty.

Local Open Scope Z_scope.

(** ** Values *)

(** JSON blobs (mappings, analysis) are carried verbatim. *)
#[local] Unset Elimination Schemes.
Inductive json : Type :=
| JNull
| JBool (b : bool)
| JInt (n : Z)
| JStr (s : string)
| JList (l : list json)
| JDict (l : list (string * json)).
#[local] Set Elimination Schemes.

(** [idx_cfg[index]]: the [mappings] and the [settings.index] part. *)
Record IndexConfig : Type := {
  mappings : json;
  number_of_shards : Z;
  number_of_replicas : Z;
  analysis : option json
}.

(** [index_stats]: [_shards.total] and
    [_all.primaries.store.size_in_bytes]. *)
Record IndexStats : Type := {
  shards_total : Z;
  size_in_bytes : Z
}.

(** [cluster_stats]: [nodes.count.data], [indices.count] and
    [indices.shards.total]. *)
Record ClusterStats : Type := {
  nodes_count_data : Z;
  indices_count : Z;
  indices_shards_total : Z
}.

(** ** Calls of [Connection] *)

Inductive Call : Type :=
| AliasUpdate (index alias operation : string)
| ClusterGetHealth
| ClusterGetStats
| IndexCreate (index : string) (mappings : option json)
    (settings : option (gmap string json)) (timeout : option string)
| IndexDelete (index : string)
| IndexForcemerge (index : string)
| IndexGetConfig (index : string)
| IndexGetStats (index : string)
| IndexReindex (index new_index : string) (slices : option Z)
    (timeout : option string).

Inductive Method : Type := GET | PUT | POST | DELETE.

(** The verb each method of [Connection] hands to [requests]. *)
Definition http_method (c : Call) : Method :=
  match c with
  | AliasUpdate _ _ _ => POST
  | ClusterGetHealth => GET
  | ClusterGetStats => GET
  | IndexCreate _ _ _ _ => PUT
  | IndexDelete _ => DELETE
  | IndexForcemerge _ => POST
  | IndexGetConfig _ => GET
  | IndexGetStats _ => GET
  | IndexReindex _ _ _ _ => POST
  end.

(** A call mutates the cluster unless it is a [GET]. *)
Definition mutating (c : Call) : bool :=
  match http_method c with
  | GET => false
  | _ => true
  end.

(** ** The world: what was sent, and what comes back *)

Record World : Type := {
  log : list Call;      (* calls issued so far, oldest first *)
  drawn : nat           (* uuids drawn so far *)
}.

(** The answers of the cluster, as functions of the history up to and
    including the call being answered. *)
Record Cluster : Type := {
  cluster_stats_of : list Call -> ClusterStats;
  config_of : list Call -> IndexConfig;
  stats_of : list Call -> IndexStats;
  ok_of : list Call -> bool;           (* [response.ok] *)
  uuid_of : nat -> string              (* the n-th [uuid.uuid4()] *)
}.

(** ** Exceptions and the monad of the program *)

Inductive exn : Type := ZeroDivisionError.

Inductive result (A : Type) : Type :=
| Ok (a : A)
| Raise (e : exn).
Arguments Ok {A} a.
Arguments Raise {A} e.

Definition M (A : Type) : Type := World -> result A * World.

Definition ret {A} (a : A) : M A := fun w => (Ok a, w).

Definition bind {A B} (m : M A) (k : A -> M B) : M B :=
  fun w =>
    match m w with
    | (Ok a, w') => k a w'
    | (Raise e, w') => (Raise e, w')
    end.

Definition lift {A} (r : result A) : M A := fun w => (r, w).

Declare Scope prog_scope.
Delimit Scope prog_scope with prog.
Notation "x <- m ;; k" := (bind m (fun x => k))
  (at level 100, m at next level, right associativity) : prog_scope.
Notation "m ;;; k" := (bind m (fun _ => k))
  (at level 100, right associativity) : prog_scope.

(** The calls a computation adds to the log when started in [w]. *)
Definition issued {A} (m : M A) (w : World) : list Call :=
  drop (length (log w)) (log (snd (m w))).

Definition outcome {A} (m : M A) (w : World) : result A := fst (m w).

(** ** Python arithmetic *)

(** [round(x)]: to the nearest integer, a tie to the even one. *)
Definition py_round (x : Q) : Z :=
  let d := Zpos (Qden x) in
  let f := Qnum x / d in
  match (2 * (Qnum x mod d) ?= d) with
  | Lt => f
  | Gt => f + 1
  | Eq => if Z.even f then f else f + 1
  end.

Definition pow2 (e : Z) : Q := Qpower 2 e.

(** The exponent of the unit in the last place of the double nearest to
    [x]: the [e] with [2^(e+52) <= |x| < 2^(e+53)]. *)
Definition binade (x : Q) : Z :=
  let l := Z.log2 (Z.abs (Qnum x)) - Z.log2 (Zpos (Qden x)) in
  if Qle_bool (pow2 l) (Qabs x) then l - 52 else l - 53.

(** The double nearest to [x], a tie to the even significand. *)
Definition binary64 (x : Q) : Q :=
  if Qeq_bool x 0 then 0
  else
    let ulp := pow2 (binade x) in
    inject_Z (py_round (x / ulp)) * ulp.

(** [a / b] on ints: the correctly rounded double of the quotient. *)
Definition py_truediv (a b : Z) : result Q :=
  match b with
  | 0 => Raise ZeroDivisionError
  | Zpos d => Ok (binary64 (a # d))
  | Zneg d => Ok (binary64 (- a # d))
  end.

(** [x > n] for a quotient [x] and an int [n]. *)
Definition py_gt (x : Q) (n : Z) : bool := negb (Qle_bool x (inject_Z n)).

(** [str(n)]. *)
Definition py_str (n : Z) : string := pretty n.

(** ** [class Connection] *)

Section Program.

Variable es : Cluster.

(** One HTTP exchange: the call joins the log; the history is returned
    for the answer to be read from. *)
Definition send (c : Call) : M (list Call) :=
  fun w =>
    let h := log w ++ [c] in
    (Ok h, {| log := h; drawn := drawn w |}).

(** [uuid.uuid4()] *)
Definition uuid4 : M string :=
  fun w => (Ok (uuid_of es (drawn w)),
            {| log := log w; drawn := S (drawn w) |}).

Local Open Scope prog_scope.

Definition alias_update (index alias operation : string) : M unit :=
  send (AliasUpdate index alias operation) ;;; ret tt.

Definition cluster_get_stats : M ClusterStats :=
  h <- send ClusterGetStats ;; ret (cluster_stats_of es h).

Definition index_create (index : string) (mappings : option json)
    (settings : option (gmap string json)) (timeout : option string)
  : M bool :=
  h <- send (IndexCreate index mappings settings timeout) ;;
  ret (ok_of es h).

Definition index_delete (index : string) : M bool :=
  h <- send (IndexDelete index) ;; ret (ok_of es h).

Definition index_forcemerge (index : string) : M unit :=
  send (IndexForcemerge index) ;;; ret tt.

(** The answer is taken as decoded: [response.json()] holding, under
    [index], the mappings and the settings that are read from it. *)
Definition index_get_config (index : string) : M IndexConfig :=
  h <- send (IndexGetConfig index) ;; ret (config_of es h).

(** The answer is taken as decoded: [response.json()] holding
    [_shards.total] and [_all.primaries.store.size_in_bytes]. *)
Definition index_get_stats (index : string) : M IndexStats :=
  h <- send (IndexGetStats index) ;; ret (stats_of es h).

Definition index_reindex (index new_index : string) (slices : option Z)
    (timeout : option string) : M bool :=
  h <- send (IndexReindex index new_index slices timeout) ;;
  ret (ok_of es h).

(** ** [class IndexOptimizer] *)

Record IndexOptimizer : Type := {
  _datanodes : Z;
  _indices : Z;
  _shards : Z
}.

(** [IndexOptimizer.__init__] *)
Definition IndexOptimizer_init : M IndexOptimizer :=
  cluster_stats <- cluster_get_stats ;;
  ret {| _datanodes := nodes_count_data cluster_stats;
         _indices := indices_count cluster_stats;
         _shards := indices_shards_total cluster_stats |}.

(** [replicas], as placed in [c_setting]. *)
Definition capped_replicas (self : IndexOptimizer) (idx_cfg : IndexConfig)
  : Z :=
  let replicas := number_of_replicas idx_cfg in
  if replicas >? _datanodes self then _datanodes self else replicas.

(** [c_setting], as handed to [index_create]. *)
Definition c_setting (self : IndexOptimizer) (idx_cfg : IndexConfig)
    (shards : Z) : gmap string json :=
  let c_setting : gmap string json :=
    {[ "number_of_shards" := JInt shards ]} in
  let c_setting :=
    match analysis idx_cfg with
    | Some a => <[ "analysis" := a ]> c_setting
    | None => c_setting
    end in
  <[ "number_of_replicas" := JInt (capped_replicas self idx_cfg) ]>
    c_setting.

(** [1 + round(self._indices / self._datanodes)] *)
Definition c_timeout_minutes (self : IndexOptimizer) : result Z :=
  match py_truediv (_indices self) (_datanodes self) with
  | Ok x => Ok (1 + py_round x)
  | Raise e => Raise e
  end.

(** [1 + round(primary_size / 500000000)] *)
Definition r_timeout_hours (primary_size : Z) : result Z :=
  match py_truediv primary_size 500000000 with
  | Ok x => Ok (1 + py_round x)
  | Raise e => Raise e
  end.

Definition index_replace (self : IndexOptimizer) (index : string)
    (shards : Z) : M unit :=
  new_index <- uuid4 ;;
  idx_cfg <- index_get_config index ;;
  let c_mapping := mappings idx_cfg in
  let c_setting := c_setting self idx_cfg shards in
  minutes <- lift (c_timeout_minutes self) ;;
  let c_timeout := (py_str minutes ++ "m")%string in
  index_create new_index (Some c_mapping) (Some c_setting)
    (Some c_timeout) ;;;
  index_stats <- index_get_stats index ;;
  let slices := shards_total index_stats in
  let primary_size := size_in_bytes index_stats in
  hours <- lift (r_timeout_hours primary_size) ;;
  let r_timeout := (py_str hours ++ "h")%string in
  index_reindex index new_index (Some slices) (Some r_timeout) ;;;
  index_delete index ;;;
  alias_update new_index index "add" ;;;
  index_forcemerge new_index.

Definition size_2gb : Z := 2147483648.
Definition size_30gb : Z := 32212254720.
Definition size_45gb : Z := 48318382080.

Definition index_optimize_shards (self : IndexOptimizer) (index : string)
  : M unit :=
  index_config <- index_get_config index ;;
  let index_shards := number_of_shards index_config in
  index_stats <- index_get_stats index ;;
  let index_primary_size := size_in_bytes index_stats in
  if (index_primary_size <? size_2gb) && (index_shards >? 1) then
    index_replace self index 1
  else
    per_shard <- lift (py_truediv index_primary_size index_shards) ;;
    if py_gt per_shard size_45gb then
      x <- lift (py_truediv index_primary_size size_30gb) ;;
      let number_of_shards := py_round x in
      if index_shards <? number_of_shards then
        index_replace self index number_of_shards
      else ret tt
    else ret tt.

End Program.

(** * Vocabulary of the statements *)

(** [a / b] as a rational, for the statements below. *)
Definition ratio (a b : Z) : Q := (inject_Z a / inject_Z b)%Q.

(** [a / b] as Python computes it, for [b] other than zero. *)
Definition quotient (a b : Z) : Q := binary64 (ratio a b).

(** The exchanges of a run: each issued call with the [response.ok] the
    cluster gave it. *)
Fixpoint answered (es : Cluster) (h : list Call) (cs : list Call)
  : list (Call * bool) :=
  match cs with
  | [] => []
  | c :: cs => (c, ok_of es (h ++ [c])) :: answered es (h ++ [c]) cs
  end.

Definition exchanges {A} (es : Cluster) (m : M A) (w : World)
  : list (Call * bool) :=
  answered es (log w) (issued m w).

(** The world once [cs] have been sent from [w]. *)
Definition sent (w : World) (cs : list Call) : World :=
  {| log := log w ++ cs; drawn := drawn w |}.

(** The calls of one complete replace workflow started in [w]. *)
Definition replace_calls (es : Cluster) (self : IndexOptimizer)
    (index : string) (shards : Z) (w : World) (minutes : Z) : list Call :=
  let new_index := uuid_of es (drawn w) in
  let h1 := log w ++ [IndexGetConfig index] in
  let idx_cfg := config_of es h1 in
  let create :=
    IndexCreate new_index (Some (mappings idx_cfg))
      (Some (c_setting self idx_cfg shards))
      (Some (py_str minutes ++ "m")%string) in
  let h3 := (h1 ++ [create]) ++ [IndexGetStats index] in
  let index_stats := stats_of es h3 in
  let hours :=
    1 + py_round (binary64 (size_in_bytes index_stats # 500000000)) in
  [ IndexGetConfig index;
    create;
    IndexGetStats index;
    IndexReindex index new_index (Some (shards_total index_stats))
      (Some (py_str hours ++ "h")%string);
    IndexDelete index;
    AliasUpdate new_index index "add";
    IndexForcemerge new_index ].

(** The same cluster with other [response.ok] answers. *)
Definition answering (es : Cluster) (ok : list Call -> bool) : Cluster :=
  {| cluster_stats_of := cluster_stats_of es;
     config_of := config_of es;
     stats_of := stats_of es;
     ok_of := ok;
     uuid_of := uuid_of es |}.

(** What [index_optimize_shards] reads: the configured shard count and
    the primary size, and the world once both were fetched. *)
Definition fetches (index : string) : list Call :=
  [IndexGetConfig index; IndexGetStats index].

Definition shards_seen (es : Cluster) (index : string) (w : World) : Z :=
  number_of_shards (config_of es (log w ++ [IndexGetConfig index])).

Definition primary_size_seen (es : Cluster) (index : string) (w : World)
  : Z :=
  size_in_bytes (stats_of es (log w ++ fetches index)).

Definition fetched (index : string) (w : World) : World :=
  sent w (fetches index).

(** ** Concrete clusters, for the examples *)

Definition fresh : World := {| log := []; drawn := 0 |}.

(** A cluster holding one index with [s] configured shards, [r] replicas
    and [p] bytes of primaries, that answers every call with status
    [ok]. *)
Definition steady (s p r : Z) (ok : bool) : Cluster :=
  {| cluster_stats_of := fun _ =>
       {| nodes_count_data := 3; indices_count := 10;
          indices_shards_total := 50 |};
     config_of := fun _ =>
       {| mappings := JDict []; number_of_shards := s;
          number_of_replicas := r; analysis := None |};
     stats_of := fun _ => {| shards_total := s; size_in_bytes := p |};
     ok_of := fun _ => ok;
     uuid_of := fun n => ("uuid-" ++ pretty n)%string |}.

Definition optimizer (datanodes indices : Z) : IndexOptimizer :=
  {| _datanodes := datanodes; _indices := indices; _shards := 50 |}.

(** The same answers on a cluster that counts [datanodes] data nodes. *)
Definition counting (datanodes : Z) (es : Cluster) : Cluster :=
  {| cluster_stats_of := fun h =>
       {| nodes_count_data := datanodes;
          indices_count := indices_count (cluster_stats_of es h);
          indices_shards_total :=
            indices_shards_total (cluster_stats_of es h) |};
     config_of := config_of es;
     stats_of := stats_of es;
     ok_of := ok_of es;
     uuid_of := uuid_of es |}.

(** Statuses of a cluster on which every call that changes it fails,
    and every fetch succeeds. *)
Definition failing_mutations (h : list Call) : bool :=
  match last h with
  | Some c => negb (mutating c)
  | None => true
  end.

Definition GiB : Z := 1073741824.

(** * The requests of [Connection] on the wire *)

(** Values held by the [json=] and [params=] dictionaries: a JSON blob,
    a settings dictionary, a string, an int. *)
Inductive pyval : Type :=
| VJson (j : json)
| VDict (d : gmap string json)
| VStr (s : string)
| VInt (n : Z).

(** What is handed to [requests]: the verb, the URL and the two optional
    keyword arguments. *)
Record Request : Type := {
  verb : Method;
  url : string;
  data : option (gmap string pyval);
  params : option (gmap string pyval)
}.

Section Wire.

(** [self._baseurl] *)
Variable baseurl : string.

Local Open Scope string_scope.

Definition alias_update_request (index alias operation : string)
  : Request :=
  let data : gmap string pyval :=
    {[ "actions" :=
         VJson (JList [JDict [(operation,
                               JDict [("index", JStr index);
                                      ("alias", JStr alias)])]]) ]} in
  {| verb := POST; url := baseurl ++ "/_aliases";
     data := Some data; params := None |}.

Definition cluster_get_health_request (params : gmap string pyval)
  : Request :=
  {| verb := GET; url := baseurl ++ "/_cluster/health";
     data := None; params := Some params |}.

Definition cluster_get_stats_request : Request :=
  {| verb := GET; url := baseurl ++ "/_cluster/stats";
     data := None; params := None |}.

Definition index_create_request (index : string) (mappings : option json)
    (settings : option (gmap string json)) (timeout : option string)
  : Request :=
  let data : gmap string pyval := ∅ in
  let data :=
    match mappings with
    | Some mappings => <[ "mappings" := VJson mappings ]> data
    | None => data
    end in
  let data :=
    match settings with
    | Some settings => <[ "settings" := VDict settings ]> data
    | None => data
    end in
  let params : gmap string pyval := ∅ in
  let params :=
    match timeout with
    | Some timeout =>
        <[ "timeout" := VStr timeout ]>
          (<[ "wait_for_active_shards" := VStr "all" ]> params)
    | None => params
    end in
  {| verb := PUT; url := (baseurl ++ "/") ++ index;
     data := Some data; params := Some params |}.

Definition index_delete_request (index : string) : Request :=
  {| verb := DELETE; url := (baseurl ++ "/") ++ index;
     data := None; params := None |}.

Definition index_forcemerge_request (index : string) : Request :=
  let params : gmap string pyval := {[ "max_num_segments" := VInt 1 ]} in
  {| verb := POST; url := ((baseurl ++ "/") ++ index) ++ "/_forcemerge";
     data := None; params := Some params |}.

Definition index_get_config_request (index : string) : Request :=
  {| verb := GET; url := (baseurl ++ "/") ++ index;
     data := None; params := None |}.

Definition index_get_stats_request (index : string) : Request :=
  {| verb := GET; url := ((baseurl ++ "/") ++ index) ++ "/_stats";
     data := None; params := None |}.

Definition index_reindex_request (index new_index : string)
    (slices : option Z) (timeout : option string) : Request :=
  let data : gmap string pyval :=
    <[ "dest" := VJson (JDict [("index", JStr new_index)]) ]>
      {[ "source" := VJson (JDict [("index", JStr index)]) ]} in
  let params : gmap string pyval := ∅ in
  let params :=
    match slices with
    | Some slices => <[ "slices" := VInt slices ]> params
    | None => params
    end in
  let params :=
    match timeout with
    | Some timeout =>
        <[ "timeout" := VStr timeout ]>
          (<[ "wait_for_completion" := VStr "true" ]> params)
    | None => params
    end in
  {| verb := POST; url := baseurl ++ "/_reindex";
     data := Some data; params := Some params |}.

(** The request behind a logged call. The [params] of a health call are
    not part of the log and are given aside. *)
Definition request_of (health : gmap string pyval) (c : Call) : Request :=
  match c with
  | AliasUpdate index alias operation =>
      alias_update_request index alias operation
  | ClusterGetHealth => cluster_get_health_request health
  | ClusterGetStats => cluster_get_stats_request
  | IndexCreate index mappings settings timeout =>
      index_create_request index mappings settings timeout
  | IndexDelete index => index_delete_request index
  | IndexForcemerge index => index_forcemerge_request index
  | IndexGetConfig index => index_get_config_request index
  | IndexGetStats index => index_get_stats_request index
  | IndexReindex index new_index slices timeout =>
      index_reindex_request index new_index slices timeout
  end.

End Wire.

(** Verb and URL of a request. *)
Definition line (r : Request) : Method * string := (verb r, url r).

(** ** An [IndexOptimizer] constructed, then asked to optimise [index]
    (the usage shown, commented out, at the end of the module) *)

Definition optimize (es : Cluster) (index : string) : M unit :=
  bind (IndexOptimizer_init es)
    (fun esop => index_optimize_shards es esop index).

(** The only calls the replace of [index] by [new_index] may issue. *)
Definition replaces (index new_index : string) (c : Call) : Prop :=
  match c with
  | IndexGetConfig i | IndexGetStats i | IndexDelete i => i = index
  | IndexCreate i _ _ _ | IndexForcemerge i => i = new_index
  | IndexReindex i n _ _ => i = index /\ n = new_index
  | AliasUpdate i a o => i = new_index /\ a = index /\ o = "add"%string
  | ClusterGetHealth | ClusterGetStats => False
  end.

(** * Properties *)

(** ** Python arithmetic *)

(** [py_round] is rounding to the nearest integer, ties to even: the
    result is within one half of the argument, and an exact half is only
    ever resolved to an even integer. *)
Lemma py_round_nearest (x : Q) :
  let d := Zpos (Qden x) in
  let r := py_round x in
  2 * Z.abs (Qnum x - r * d) <= d /\
  (2 * Z.abs (Qnum x - r * d) = d -> Z.even r = true).
Proof.
  intros d r. subst r. unfold py_round. fold d.
  assert (Hd : 0 < d) by (subst d; lia).
  pose proof (Z.div_mod (Qnum x) d ltac:(lia)) as Hdm.
  pose proof (Z.mod_pos_bound (Qnum x) d Hd) as Hm.
  set (f := Qnum x / d) in *. set (m := Qnum x mod d) in *.
  destruct (Z.compare_spec (2 * m) d) as [He | Hl | Hg].
  - destruct (Z.even f) eqn:Hf.
    + split; [lia | auto].
    + split; [lia | intros _].
      rewrite Z.even_add, Hf. reflexivity.
  - split; lia.
  - split; lia.
Qed.

Lemma py_round_mono (x y : Q) : (x <= y)%Q -> py_round x <= py_round y.
Proof.
  intros Hxy. unfold Qle in Hxy.
  destruct (py_round_nearest x) as [Hx Hxe].
  destruct (py_round_nearest y) as [Hy Hye].
  cbv zeta in *.
  set (r1 := py_round x) in *. set (r2 := py_round y) in *.
  set (n1 := Qnum x) in *. set (n2 := Qnum y) in *.
  set (d1 := Zpos (Qden x)) in *. set (d2 := Zpos (Qden y)) in *.
  assert (Hd1 : 0 < d1) by (subst d1; lia).
  assert (Hd2 : 0 < d2) by (subst d2; lia).
  destruct (Z_le_gt_dec r1 r2) as [|Hgt]; [assumption | exfalso].
  assert (L1 : (2 * r1 - 1) * d1 <= 2 * n1) by lia.
  assert (L2 : 2 * n2 <= (2 * r2 + 1) * d2) by lia.
  assert (L3 : (2 * r1 - 1) * d1 * d2 <= 2 * n1 * d2) by nia.
  assert (L4 : 2 * n2 * d1 <= (2 * r2 + 1) * d2 * d1) by nia.
  assert (L5 : (2 * r2 + 1) * (d1 * d2) <= (2 * r1 - 1) * (d1 * d2)).
  { apply Z.mul_le_mono_nonneg_r; nia. }
  assert (E1 : (2 * r1 - 1) * d1 * d2 = 2 * n1 * d2) by nia.
  assert (E2 : 2 * n2 * d1 = (2 * r2 + 1) * d2 * d1) by nia.
  assert (E3 : (2 * r2 + 1) * (d1 * d2) = (2 * r1 - 1) * (d1 * d2)) by nia.
  assert (Er : r1 = r2 + 1) by nia.
  assert (T1 : 2 * n1 = (2 * r1 - 1) * d1) by nia.
  assert (T2 : 2 * n2 = (2 * r2 + 1) * d2) by nia.
  assert (H1 : Z.even r1 = true) by (apply Hxe; lia).
  assert (H2 : Z.even r2 = true) by (apply Hye; lia).
  rewrite Er, Z.even_add, H2 in H1. discriminate.
Qed.

(** [py_round] depends on the value of the rational only. *)
Lemma py_round_Qeq (x y : Q) : (x == y)%Q -> py_round x = py_round y.
Proof.
  intros H. apply Z.le_antisymm; apply py_round_mono; rewrite H;
    apply Qle_refl.
Qed.

Lemma py_round_nonneg (x : Q) : (0 <= x)%Q -> 0 <= py_round x.
Proof. intros H. apply (py_round_mono 0 x H). Qed.

Example py_round_ties :
  map py_round [1 # 2; 3 # 2; 5 # 2; -1 # 2; -3 # 2; 7 # 4; 10 # 3]
  = [0; 2; 2; 0; -2; 2; 3].
Proof. reflexivity. Qed.

Lemma ratio_nonneg (a b : Z) : 0 <= a -> 1 <= b -> (0 <= ratio a b)%Q.
Proof.
  intros Ha Hb. unfold ratio, Qle, Qdiv, Qmult, Qinv, inject_Z.
  destruct b as [| d | d]; try lia. simpl. lia.
Qed.

Lemma Qmake_ratio (a : Z) (d : positive) : (a # d == ratio a (Zpos d))%Q.
Proof. unfold ratio, Qeq, Qdiv, Qmult, Qinv, inject_Z. simpl. lia. Qed.

(** ** Doubles *)

Lemma py_round_inject (k : Z) : py_round (inject_Z k) = k.
Proof.
  unfold py_round, inject_Z. cbn [Qnum Qden].
  rewrite Z.div_1_r, Z.mod_1_r. reflexivity.
Qed.

Lemma py_round_within (x : Q) :
  (x - (1 # 2) <= inject_Z (py_round x) <= x + (1 # 2))%Q.
Proof.
  destruct (py_round_nearest x) as [H _]. cbv zeta in H.
  destruct x as [n d]. cbn [Qnum Qden] in H.
  unfold Qle, Qminus, Qplus, Qopp, inject_Z. cbn [Qnum Qden].
  split; lia.
Qed.

Lemma py_round_le (x : Q) (k : Z) : (x <= inject_Z k)%Q -> py_round x <= k.
Proof.
  intros H. rewrite <- (py_round_inject k). apply py_round_mono, H.
Qed.

Lemma py_round_ge (x : Q) (k : Z) : (inject_Z k <= x)%Q -> k <= py_round x.
Proof.
  intros H. rewrite <- (py_round_inject k). apply py_round_mono, H.
Qed.

Lemma pow2_pos (e : Z) : (0 < pow2 e)%Q.
Proof. apply Qpower_0_lt. reflexivity. Qed.

Lemma pow2_add (a b : Z) : (pow2 (a + b) == pow2 a * pow2 b)%Q.
Proof. apply Qpower_plus. discriminate. Qed.

Lemma pow2_le (a b : Z) : a <= b -> (pow2 a <= pow2 b)%Q.
Proof. intros H. apply Qpower_le_compat_l; [exact H | discriminate]. Qed.

Lemma pow2_lt (a b : Z) : a < b -> (pow2 a < pow2 b)%Q.
Proof. intros H. apply Qpower_lt_compat_l; [exact H | reflexivity]. Qed.

Lemma pow2_lt_inv (a b : Z) : (pow2 a < pow2 b)%Q -> a < b.
Proof. intros H. apply (Qpower_lt_compat_l_inv 2); [exact H | reflexivity]. Qed.

Lemma pow2_Z (e : Z) : 0 <= e -> (pow2 e == inject_Z (2 ^ e))%Q.
Proof. intros H. symmetry. apply (Zpower_Qpower 2 e H). Qed.

Lemma pow2_succ (e : Z) : (pow2 (e + 1) == 2 * pow2 e)%Q.
Proof. rewrite pow2_add. change (pow2 1) with 2%Q. ring. Qed.

Lemma log2_bounds (n : Z) :
  0 < n ->
  (pow2 (Z.log2 n) <= inject_Z n /\ inject_Z n < 2 * pow2 (Z.log2 n))%Q.
Proof.
  intros Hn. destruct (Z.log2_spec n Hn) as [H1 H2].
  pose proof (Z.log2_nonneg n) as H0.
  rewrite <- pow2_succ, !pow2_Z by lia.
  rewrite <- Zle_Qle, <- Zlt_Qlt. replace (Z.log2 n + 1) with (Z.succ (Z.log2 n)) by lia.
  split; assumption.
Qed.

Lemma binade_spec (x : Q) :
  ~ (x == 0)%Q ->
  (pow2 (binade x + 52) <= Qabs x /\ Qabs x < pow2 (binade x + 53))%Q.
Proof.
  intros Hx.
  set (n := Z.abs (Qnum x)). set (d := Zpos (Qden x)).
  assert (Hn : 0 < n).
  { subst n. destruct x as [[| p | p] q]; cbn [Qnum]; try lia.
    exfalso. apply Hx. reflexivity. }
  assert (Hd : 0 < d) by (subst d; lia).
  assert (HA : (Qabs x * inject_Z d == inject_Z n)%Q).
  { destruct x as [a q]. subst n d. unfold Qabs, Qeq, Qmult, inject_Z.
    cbn [Qnum Qden]. lia. }
  destruct (log2_bounds n Hn) as [N1 N2].
  destruct (log2_bounds d Hd) as [D1 D2].
  unfold binade. fold n d.
  set (l := Z.log2 n - Z.log2 d).
  assert (Hl : (pow2 (Z.log2 n) == pow2 l * pow2 (Z.log2 d))%Q).
  { rewrite <- pow2_add. subst l. replace (Z.log2 n - Z.log2 d + Z.log2 d) with (Z.log2 n) by lia.
    reflexivity. }
  pose proof (pow2_pos l) as Pl. pose proof (pow2_pos (Z.log2 d)) as Pd.
  pose proof (Qabs_nonneg x) as HA0.
  set (A := Qabs x) in *. set (P := pow2 l) in *.
  set (a := pow2 (Z.log2 d)) in *. set (N := inject_Z n) in *.
  set (Dq := inject_Z d) in *. set (pn := pow2 (Z.log2 n)) in *.
  assert (U : (A < 2 * P)%Q) by nra.
  assert (L : (P < 2 * A)%Q) by nra.
  destruct (Qle_bool P A) eqn:E.
  - apply Qle_bool_iff in E.
    replace (l - 52 + 52) with l by lia.
    replace (l - 52 + 53) with (l + 1) by lia.
    rewrite pow2_succ. fold P. split; [exact E | exact U].
  - assert (E' : (A < P)%Q).
    { apply Qnot_le_lt. intros H. apply Qle_bool_iff in H. congruence. }
    replace (l - 53 + 53) with l by lia.
    replace (l - 53 + 52) with (l - 1) by lia.
    assert (Hm : (2 * pow2 (l - 1) == P)%Q).
    { rewrite <- pow2_succ. replace (l - 1 + 1) with l by lia. reflexivity. }
    fold P. split; [lra | exact E'].
Qed.

Lemma binade_unique (x : Q) (k : Z) :
  ~ (x == 0)%Q ->
  (pow2 (k + 52) <= Qabs x)%Q -> (Qabs x < pow2 (k + 53))%Q ->
  binade x = k.
Proof.
  intros Hx H1 H2. destruct (binade_spec x Hx) as [S1 S2].
  assert (A : binade x + 52 < k + 53).
  { apply pow2_lt_inv. eapply Qle_lt_trans; eassumption. }
  assert (B : k + 52 < binade x + 53).
  { apply pow2_lt_inv. eapply Qle_lt_trans; eassumption. }
  lia.
Qed.

Lemma binade_Qeq (x y : Q) :
  ~ (x == 0)%Q -> (x == y)%Q -> binade x = binade y.
Proof.
  intros Hx E. symmetry.
  assert (Hy : ~ (y == 0)%Q) by (rewrite <- E; exact Hx).
  destruct (binade_spec x Hx) as [S1 S2].
  apply binade_unique; [exact Hy | rewrite <- E; exact S1
                       | rewrite <- E; exact S2].
Qed.

Lemma binary64_zero (x : Q) : (x == 0)%Q -> binary64 x = 0%Q.
Proof.
  intros H. unfold binary64.
  apply Qeq_bool_iff in H. rewrite H. reflexivity.
Qed.

Lemma binary64_nonzero (x : Q) :
  ~ (x == 0)%Q ->
  binary64 x
  = (inject_Z (py_round (x / pow2 (binade x))) * pow2 (binade x))%Q.
Proof.
  intros H. unfold binary64.
  destruct (Qeq_bool x 0) eqn:E; [| reflexivity].
  apply Qeq_bool_iff in E. contradiction.
Qed.

Lemma binary64_Qeq (x y : Q) : (x == y)%Q -> binary64 x = binary64 y.
Proof.
  intros E. destruct (Qeq_dec x 0) as [Hx | Hx].
  - rewrite (binary64_zero x Hx), (binary64_zero y); [reflexivity |].
    rewrite <- E. exact Hx.
  - assert (Hy : ~ (y == 0)%Q) by (rewrite <- E; exact Hx).
    rewrite (binary64_nonzero x Hx), (binary64_nonzero y Hy).
    rewrite <- (binade_Qeq x y Hx E).
    rewrite (py_round_Qeq (x / pow2 (binade x)) (y / pow2 (binade x))).
    + reflexivity.
    + apply Qdiv_comp; [exact E | reflexivity].
Qed.

Lemma scaled_back (x : Q) (e : Z) : (x / pow2 e * pow2 e == x)%Q.
Proof.
  pose proof (pow2_pos e) as H. field. intros H0. rewrite H0 in H.
  apply (Qlt_irrefl _ H).
Qed.

(** The result is within half a unit in the last place of the argument. *)
Lemma binary64_within (x : Q) :
  let ulp := pow2 (binade x) in
  (x - ulp * (1 # 2) <= binary64 x <= x + ulp * (1 # 2))%Q.
Proof.
  intros ulp. pose proof (pow2_pos (binade x)) as Hu. fold ulp in Hu.
  destruct (Qeq_dec x 0) as [Hx | Hx].
  - rewrite (binary64_zero x Hx), Hx. split; lra.
  - rewrite (binary64_nonzero x Hx). fold ulp.
    destruct (py_round_within (x / ulp)) as [W1 W2].
    pose proof (scaled_back x (binade x)) as Hs. fold ulp in Hs.
    set (m := inject_Z (py_round (x / ulp))) in *.
    set (q := (x / ulp)%Q) in *.
    split; nra.
Qed.

(** The unit in the last place is at most 2^-52 of the magnitude. *)
Lemma ulp_small (x : Q) :
  ~ (x == 0)%Q ->
  (pow2 (binade x) * inject_Z (2 ^ 52) <= Qabs x
   /\ Qabs x < pow2 (binade x) * inject_Z (2 ^ 53))%Q.
Proof.
  intros Hx. destruct (binade_spec x Hx) as [S1 S2].
  rewrite pow2_add in S1, S2.
  rewrite (pow2_Z 52) in S1 by lia. rewrite (pow2_Z 53) in S2 by lia.
  split; assumption.
Qed.

Lemma binary64_relative (x : Q) :
  (Qabs (binary64 x - x) <= Qabs x * (1 # 2 ^ 53))%Q.
Proof.
  destruct (Qeq_dec x 0) as [Hx | Hx].
  - rewrite (binary64_zero x Hx), Hx. cbn. discriminate.
  - destruct (binary64_within x) as [W1 W2]. cbv zeta in *.
    destruct (ulp_small x Hx) as [U1 _].
    pose proof (pow2_pos (binade x)) as Hu.
    set (u := pow2 (binade x)) in *.
    change (inject_Z (2 ^ 52)) with (4503599627370496 # 1)%Q in U1.
    change (1 # 2 ^ 53)%Q with (1 # 9007199254740992)%Q.
    apply Qabs_Qle_condition. split; lra.
Qed.

(** Values that are whole multiples of the unit in the last place of [x]
    bound the result as they bound [x]. *)
Lemma binary64_le_multiple (x : Q) (k : Z) :
  ~ (x == 0)%Q ->
  (x <= inject_Z k * pow2 (binade x))%Q ->
  (binary64 x <= inject_Z k * pow2 (binade x))%Q.
Proof.
  intros Hx H. rewrite (binary64_nonzero x Hx).
  pose proof (pow2_pos (binade x)) as Hu.
  set (u := pow2 (binade x)) in *.
  assert (Hq : (x / u <= inject_Z k)%Q).
  { apply Qle_shift_div_r; assumption. }
  apply py_round_le in Hq. rewrite Zle_Qle in Hq.
  set (m := inject_Z (py_round (x / u))) in *. nra.
Qed.

Lemma binary64_ge_multiple (x : Q) (k : Z) :
  ~ (x == 0)%Q ->
  (inject_Z k * pow2 (binade x) <= x)%Q ->
  (inject_Z k * pow2 (binade x) <= binary64 x)%Q.
Proof.
  intros Hx H. rewrite (binary64_nonzero x Hx).
  pose proof (pow2_pos (binade x)) as Hu.
  set (u := pow2 (binade x)) in *.
  assert (Hq : (inject_Z k <= x / u)%Q).
  { apply Qle_shift_div_l; assumption. }
  apply py_round_ge in Hq. rewrite Zle_Qle in Hq.
  set (m := inject_Z (py_round (x / u))) in *. nra.
Qed.

Lemma pow2_52 (e : Z) : (pow2 (e + 52) == inject_Z (2 ^ 52) * pow2 e)%Q.
Proof. rewrite pow2_add, (pow2_Z 52) by lia. ring. Qed.

Lemma pow2_53 (e : Z) : (pow2 (e + 53) == inject_Z (2 ^ 53) * pow2 e)%Q.
Proof. rewrite pow2_add, (pow2_Z 53) by lia. ring. Qed.

Lemma binary64_pos_bounds (x : Q) :
  (0 < x)%Q ->
  (pow2 (binade x + 52) <= binary64 x <= pow2 (binade x + 53))%Q.
Proof.
  intros Hx.
  assert (Hn : ~ (x == 0)%Q) by (intros E; rewrite E in Hx; discriminate).
  destruct (binade_spec x Hn) as [S1 S2].
  rewrite (Qabs_pos x) in S1, S2 by lra.
  rewrite pow2_52 in *. rewrite pow2_53 in *. split.
  - apply binary64_ge_multiple; assumption.
  - apply binary64_le_multiple; [assumption | lra].
Qed.

Lemma binary64_neg_bounds (x : Q) :
  (x < 0)%Q ->
  (- pow2 (binade x + 53) <= binary64 x <= - pow2 (binade x + 52))%Q.
Proof.
  intros Hx.
  assert (Hn : ~ (x == 0)%Q) by (intros E; rewrite E in Hx; discriminate).
  destruct (binade_spec x Hn) as [S1 S2].
  rewrite (Qabs_neg x) in S1, S2 by lra.
  rewrite pow2_52 in *. rewrite pow2_53 in *.
  pose proof (binary64_ge_multiple x (- 2 ^ 53) Hn) as G.
  pose proof (binary64_le_multiple x (- 2 ^ 52) Hn) as L.
  rewrite !inject_Z_opp in G, L.
  split; [lra | lra].
Qed.

Lemma binary64_same_binade (x y : Q) :
  ~ (x == 0)%Q -> ~ (y == 0)%Q -> binade x = binade y ->
  (x <= y)%Q -> (binary64 x <= binary64 y)%Q.
Proof.
  intros Hx Hy E H.
  rewrite (binary64_nonzero x Hx), (binary64_nonzero y Hy), E.
  pose proof (pow2_pos (binade y)) as Hu.
  set (u := pow2 (binade y)) in *.
  assert (Hq : (x / u <= y / u)%Q).
  { apply Qle_shift_div_l; [assumption |].
    unfold Qdiv. rewrite <- Qmult_assoc, (Qmult_comm (/ u)), Qmult_inv_r.
    - lra.
    - intros E0. rewrite E0 in Hu. discriminate. }
  apply py_round_mono in Hq. rewrite Zle_Qle in Hq.
  set (m1 := inject_Z (py_round (x / u))) in *.
  set (m2 := inject_Z (py_round (y / u))) in *. nra.
Qed.

(** Rounding to a double is monotone. *)
Lemma binary64_mono (x y : Q) :
  (x <= y)%Q -> (binary64 x <= binary64 y)%Q.
Proof.
  intros H.
  destruct (Q_dec x 0) as [[Hx | Hx] | Hx];
    destruct (Q_dec y 0) as [[Hy | Hy] | Hy].
  - (* both negative *)
    assert (Hnx : ~ (x == 0)%Q) by (intros E; rewrite E in Hx; discriminate).
    assert (Hny : ~ (y == 0)%Q) by (intros E; rewrite E in Hy; discriminate).
    destruct (binade_spec x Hnx) as [X1 X2].
    destruct (binade_spec y Hny) as [Y1 Y2].
    rewrite (Qabs_neg x) in X1, X2 by lra.
    rewrite (Qabs_neg y) in Y1, Y2 by lra.
    assert (Hb : binade y <= binade x).
    { assert (binade y + 52 < binade x + 53); [| lia].
      apply pow2_lt_inv. lra. }
    destruct (Z.eq_dec (binade x) (binade y)) as [E | E].
    + apply binary64_same_binade; assumption.
    + destruct (binary64_neg_bounds x Hx) as [_ B1].
      destruct (binary64_neg_bounds y Hy) as [B2 _].
      pose proof (pow2_le (binade y + 53) (binade x + 52) ltac:(lia)).
      lra.
  - destruct (binary64_neg_bounds x Hx) as [_ B1].
    destruct (binary64_pos_bounds y Hy) as [B2 _].
    pose proof (pow2_pos (binade x + 52)). pose proof (pow2_pos (binade y + 52)).
    lra.
  - destruct (binary64_neg_bounds x Hx) as [_ B1].
    rewrite (binary64_zero y Hy).
    pose proof (pow2_pos (binade x + 52)). lra.
  - lra.
  - (* both positive *)
    assert (Hnx : ~ (x == 0)%Q) by (intros E; rewrite E in Hx; discriminate).
    assert (Hny : ~ (y == 0)%Q) by (intros E; rewrite E in Hy; discriminate).
    destruct (binade_spec x Hnx) as [X1 X2].
    destruct (binade_spec y Hny) as [Y1 Y2].
    rewrite (Qabs_pos x) in X1, X2 by lra.
    rewrite (Qabs_pos y) in Y1, Y2 by lra.
    assert (Hb : binade x <= binade y).
    { assert (binade x + 52 < binade y + 53); [| lia].
      apply pow2_lt_inv. lra. }
    destruct (Z.eq_dec (binade x) (binade y)) as [E | E].
    + apply binary64_same_binade; assumption.
    + destruct (binary64_pos_bounds x Hx) as [_ B1].
      destruct (binary64_pos_bounds y Hy) as [B2 _].
      pose proof (pow2_le (binade x + 53) (binade y + 52) ltac:(lia)).
      lra.
  - rewrite Hy in H. lra.
  - rewrite Hx in H. lra.
  - rewrite (binary64_zero x Hx).
    destruct (binary64_pos_bounds y Hy) as [B2 _].
    pose proof (pow2_pos (binade y + 52)). lra.
  - rewrite (binary64_zero x Hx), (binary64_zero y Hy). lra.
Qed.

Lemma py_round_unique (x : Q) (r : Z) :
  2 * Z.abs (Qnum x - r * Zpos (Qden x)) <= Zpos (Qden x) ->
  (2 * Z.abs (Qnum x - r * Zpos (Qden x)) = Zpos (Qden x) ->
   Z.even r = true) ->
  py_round x = r.
Proof.
  intros H1 H2. destruct (py_round_nearest x) as [N1 N2]. cbv zeta in *.
  set (r0 := py_round x) in *. set (n := Qnum x) in *.
  set (d := Zpos (Qden x)) in *.
  assert (Hd : 0 < d) by (subst d; lia).
  assert (Hc : r0 = r \/ r0 = r + 1 \/ r0 = r - 1) by nia.
  destruct Hc as [E | [E | E]]; [exact E | exfalso | exfalso].
  - assert (T1 : 2 * Z.abs (n - r0 * d) = d) by nia.
    assert (T2 : 2 * Z.abs (n - r * d) = d) by nia.
    specialize (N2 T1). specialize (H2 T2).
    rewrite E, Z.even_add, H2 in N2. discriminate.
  - assert (T1 : 2 * Z.abs (n - r0 * d) = d) by nia.
    assert (T2 : 2 * Z.abs (n - r * d) = d) by nia.
    specialize (N2 T1). specialize (H2 T2).
    rewrite E, Z.even_sub, H2 in N2. discriminate.
Qed.

(** Rounding first to multiples of [1/t], [t] even and above the
    denominator, then to an integer, is rounding to an integer. *)
Lemma py_round_twice (a : Z) (d t : positive) :
  Z.even (Zpos t) = true -> Zpos d < Zpos t ->
  py_round (py_round (a * Zpos t # d) # t) = py_round (a # d).
Proof.
  intros Ht Hlt.
  destruct (py_round_nearest (a # d)) as [R1 R2].
  destruct (py_round_nearest (a * Zpos t # d)) as [M1 _].
  cbv zeta in *. cbn [Qnum Qden] in *.
  set (r := py_round (a # d)) in *.
  set (m := py_round (a * Zpos t # d)) in *.
  set (b := Zpos d) in *. set (T := Zpos t) in *.
  assert (Hb : 0 < b) by (subst b; lia).
  destruct (Zeven_ex T) as [t' Ht'].
  { apply Zeven_bool_iff. exact Ht. }
  apply py_round_unique; cbn [Qnum Qden]; fold T.
  - assert (2 * b * Z.abs (m - r * T) <= b * (T + 1)) by nia.
    assert (2 * Z.abs (m - r * T) <= T + 1) by nia.
    lia.
  - intros Htie. apply R2.
    assert (Hc : m - r * T = t' \/ m - r * T = - t') by lia.
    destruct Hc as [E | E].
    + assert (T * Z.abs (2 * a - 2 * r * b - b) <= b) by nia.
      assert (Z.abs (2 * a - 2 * r * b - b) < 1) by nia.
      lia.
    + assert (T * Z.abs (2 * a - 2 * r * b + b) <= b) by nia.
      assert (Z.abs (2 * a - 2 * r * b + b) < 1) by nia.
      lia.
Qed.

Lemma pow2_neg_inv (e : Z) :
  e <= 0 -> (pow2 e * inject_Z (2 ^ (- e)) == 1)%Q.
Proof.
  intros H. rewrite <- (pow2_Z (- e)) by lia. rewrite <- pow2_add.
  replace (e + - e) with 0 by lia. reflexivity.
Qed.

(** Dividing by a unit in the last place below 1 is multiplying by a
    power of two. *)
Lemma scaled_int (x : Q) (e : Z) :
  e <= 0 -> (x / pow2 e == x * inject_Z (2 ^ (- e)))%Q.
Proof.
  intros H. pose proof (pow2_pos e) as Hu.
  pose proof (pow2_neg_inv e H) as Hi.
  apply (Qmult_inj_r _ _ (pow2 e)).
  - intros E. rewrite E in Hu. discriminate.
  - rewrite scaled_back. rewrite <- Qmult_assoc, (Qmult_comm (inject_Z _)), Hi.
    ring.
Qed.

Lemma unscaled_int (m : Z) (e : Z) :
  e <= 0 ->
  (inject_Z m * pow2 e == m # Z.to_pos (2 ^ (- e)))%Q.
Proof.
  intros H. pose proof (pow2_neg_inv e H) as Hi.
  assert (Ht : 0 < 2 ^ (- e)) by (apply Z.pow_pos_nonneg; lia).
  apply (Qmult_inj_r _ _ (inject_Z (2 ^ (- e)))).
  - intros E. unfold Qeq, inject_Z in E. cbn in E. lia.
  - rewrite <- Qmult_assoc, Hi.
    unfold Qeq, Qmult, inject_Z. cbn [Qnum Qden].
    rewrite Pos.mul_1_r, Z2Pos.id by lia. lia.
Qed.

(** Below 2^52 the double of a quotient rounds to the same integer as
    the quotient itself. *)
Lemma binary64_round_small (a : Z) (d : positive) :
  0 <= a < 2 ^ 52 ->
  py_round (binary64 (a # d)) = py_round (a # d).
Proof.
  intros [Ha0 Ha].
  destruct (Z.eq_dec a 0) as [-> | Hne].
  - rewrite (binary64_zero (0 # d)) by reflexivity.
    apply py_round_Qeq. reflexivity.
  - set (x := a # d).
    assert (Hx : (0 < x)%Q) by (unfold x, Qlt; cbn; lia).
    assert (Hn : ~ (x == 0)%Q) by (intros E; rewrite E in Hx; discriminate).
    destruct (binade_spec x Hn) as [S1 _].
    rewrite (Qabs_pos x) in S1 by lra.
    assert (Hxa : (x <= inject_Z a)%Q).
    { unfold x, Qle, inject_Z. cbn [Qnum Qden]. nia. }
    assert (He : binade x < 0).
    { assert (binade x + 52 < 52); [| lia]. apply pow2_lt_inv.
      rewrite (pow2_Z 52) by lia.
      assert ((inject_Z a < inject_Z (2 ^ 52))%Q) by (rewrite <- Zlt_Qlt; lia).
      lra. }
    set (e := binade x) in *.
    set (t := 2 ^ (- e)).
    assert (Ht : 0 < t) by (apply Z.pow_pos_nonneg; lia).
    assert (Hev : Z.even t = true).
    { unfold t. rewrite Z.even_pow by lia. reflexivity. }
    assert (Hdt : Zpos d < t).
    { rewrite pow2_52 in S1.
      pose proof (pow2_neg_inv e ltac:(lia)) as Hi. fold t in Hi.
      pose proof (pow2_pos e) as Hu.
      assert (Hxd : (x * inject_Z (Zpos d) == inject_Z a)%Q).
      { unfold x, Qeq, Qmult, inject_Z. cbn [Qnum Qden]. lia. }
      assert (HT : (0 < inject_Z t)%Q) by (rewrite <- (Zlt_Qlt 0); lia).
      assert (HD : (0 < inject_Z (Zpos d))%Q) by (rewrite <- (Zlt_Qlt 0); lia).
      assert (K : (inject_Z (2 ^ 52) * inject_Z (Zpos d)
                   <= inject_Z a * inject_Z t)%Q).
      { set (u := pow2 e) in *. set (T := inject_Z t) in *.
        set (B := inject_Z (Zpos d)) in *. set (A := inject_Z a) in *.
        set (C := inject_Z (2 ^ 52)) in *.
        assert (HC : (0 < C)%Q) by reflexivity.
        assert (K1 : (C * u * T <= x * T)%Q) by nra.
        assert (K2 : (C <= x * T)%Q) by nra.
        assert (K3 : (C * B <= x * T * B)%Q) by nra.
        nra. }
      rewrite <- !inject_Z_mult, <- Zle_Qle in K. nia. }
    rewrite (binary64_nonzero x Hn). fold e.
    rewrite (py_round_Qeq _ _ (unscaled_int _ e ltac:(lia))). fold t.
    rewrite (py_round_Qeq (x / pow2 e) (a * t # d)).
    + replace t with (Zpos (Z.to_pos t)) at 1 by (apply Z2Pos.id; lia).
      apply py_round_twice; rewrite Z2Pos.id by lia; assumption.
    + rewrite (scaled_int x e) by lia. fold t.
      unfold x, Qeq, Qmult, inject_Z. cbn [Qnum Qden]. lia.
Qed.

Lemma int_multiple (k e : Z) :
  e <= 0 -> (inject_Z k == inject_Z (k * 2 ^ (- e)) * pow2 e)%Q.
Proof.
  intros H. rewrite inject_Z_mult, <- Qmult_assoc.
  rewrite (Qmult_comm (inject_Z (2 ^ _))), (pow2_neg_inv e H). ring.
Qed.

Lemma binary64_nonneg (x : Q) : (0 <= x)%Q -> (0 <= binary64 x)%Q.
Proof.
  intros H. change 0%Q with (binary64 0). apply binary64_mono, H.
Qed.

Lemma binary64_nonpos (x : Q) : (x <= 0)%Q -> (binary64 x <= 0)%Q.
Proof.
  intros H. change 0%Q with (binary64 0). apply binary64_mono, H.
Qed.

(** Integers below 2^53 bound the double as they bound the argument. *)
Lemma binary64_le_int (x : Q) (k : Z) :
  0 <= k < 2 ^ 53 ->
  (x <= inject_Z k)%Q -> (binary64 x <= inject_Z k)%Q.
Proof.
  intros [K0 K1] H.
  assert (HK : (0 <= inject_Z k)%Q) by (rewrite <- (Zle_Qle 0); exact K0).
  destruct (Qlt_le_dec 0 x) as [Hx | Hx].
  - assert (Hn : ~ (x == 0)%Q) by (intros E; rewrite E in Hx; discriminate).
    destruct (binade_spec x Hn) as [S1 _].
    rewrite (Qabs_pos x) in S1 by lra.
    assert (He : binade x <= 0).
    { assert (binade x + 52 < 53); [| lia]. apply pow2_lt_inv.
      rewrite (pow2_Z 53) by lia.
      assert ((inject_Z k < inject_Z (2 ^ 53))%Q) by (rewrite <- Zlt_Qlt; lia).
      lra. }
    rewrite (int_multiple k (binade x) He) in *.
    apply binary64_le_multiple; assumption.
  - pose proof (binary64_nonpos x Hx). lra.
Qed.

Lemma binary64_ge_int (x : Q) (k : Z) :
  0 <= k < 2 ^ 53 ->
  (inject_Z k <= x)%Q -> (inject_Z k <= binary64 x)%Q.
Proof.
  intros [K0 K1] H.
  assert (HK : (0 <= inject_Z k)%Q) by (rewrite <- (Zle_Qle 0); exact K0).
  destruct (Qlt_le_dec 0 x) as [Hx | Hx].
  - assert (Hn : ~ (x == 0)%Q) by (intros E; rewrite E in Hx; discriminate).
    destruct (Z_le_gt_dec (binade x) 0) as [He | He].
    + rewrite (int_multiple k (binade x) He) in *.
      apply binary64_ge_multiple; assumption.
    + destruct (binary64_pos_bounds x Hx) as [B _].
      pose proof (pow2_le 53 (binade x + 52) ltac:(lia)) as P.
      rewrite (pow2_Z 53) in P by lia.
      assert ((inject_Z k < inject_Z (2 ^ 53))%Q) by (rewrite <- Zlt_Qlt; lia).
      lra.
  - assert (E : (x == 0)%Q) by lra.
    rewrite (binary64_zero x E). lra.
Qed.

(** Against an integer below 2^36, and for a denominator below 2^18,
    the double of a quotient compares as the quotient does. *)
Lemma binary64_gt_int (c p : Z) (d : positive) :
  0 < c < 2 ^ 36 -> Zpos d < 2 ^ 18 ->
  (inject_Z c < binary64 (p # d))%Q <-> c * Zpos d < p.
Proof.
  intros [C0 C1] Hd. set (x := p # d).
  assert (HD : (x * inject_Z (Zpos d) == inject_Z p)%Q).
  { unfold x, Qeq, Qmult, inject_Z. cbn [Qnum Qden]. lia. }
  assert (HD0 : (0 < inject_Z (Zpos d))%Q) by (rewrite <- (Zlt_Qlt 0); lia).
  assert (HD1 : (inject_Z (Zpos d) < inject_Z (2 ^ 18))%Q)
    by (rewrite <- Zlt_Qlt; exact Hd).
  assert (HC : (0 < inject_Z c)%Q) by (rewrite <- (Zlt_Qlt 0); lia).
  split.
  - intros H. destruct (Z_lt_le_dec (c * Zpos d) p) as [|Hle]; [assumption |].
    exfalso.
    assert (Hx : (x <= inject_Z c)%Q).
    { unfold x, Qle, inject_Z. cbn [Qnum Qden]. lia. }
    pose proof (binary64_le_int x c ltac:(lia) Hx). lra.
  - intros H.
    assert (Hp : (inject_Z (c * Zpos d + 1) <= inject_Z p)%Q)
      by (rewrite <- Zle_Qle; lia).
    rewrite inject_Z_plus, inject_Z_mult in Hp.
    set (D := inject_Z (Zpos d)) in *. set (C := inject_Z c) in *.
    change (inject_Z 1) with 1%Q in Hp.
    change (inject_Z (2 ^ 18)) with (262144 # 1)%Q in HD1.
    assert (Hgap : ((1 # 262144) < x - C)%Q) by nra.
    assert (Hx : (0 < x)%Q) by lra.
    assert (Hn : ~ (x == 0)%Q) by (intros E; rewrite E in Hx; discriminate).
    destruct (Z_le_gt_dec (binade x) (-17)) as [He | He].
    + pose proof (pow2_le (binade x) (-17) He) as Hu.
      change (pow2 (-17)) with (1 # 131072)%Q in Hu.
      pose proof (pow2_pos (binade x)) as Hu0.
      pose proof (int_multiple c (binade x) ltac:(lia)) as Hk. fold C in Hk.
      rewrite (binary64_nonzero x Hn).
      destruct (py_round_within (x / pow2 (binade x))) as [W _].
      pose proof (scaled_back x (binade x)) as Hs.
      set (u := pow2 (binade x)) in *. set (q := (x / u)%Q) in *.
      set (K := c * 2 ^ (- binade x)) in *.
      assert (Hq : (inject_Z K + (1 # 2) < q)%Q) by nra.
      assert (HM : K < py_round q).
      { rewrite Zlt_Qlt. lra. }
      assert (HM' : (inject_Z (K + 1) <= inject_Z (py_round q))%Q)
        by (rewrite <- Zle_Qle; lia).
      rewrite inject_Z_plus in HM'. change (inject_Z 1) with 1%Q in HM'.
      set (m := inject_Z (py_round q)) in *. nra.
    + destruct (binary64_pos_bounds x Hx) as [B _].
      pose proof (pow2_le 36 (binade x + 52) ltac:(lia)) as P.
      rewrite (pow2_Z 36) in P by lia.
      assert ((C < inject_Z (2 ^ 36))%Q) by (unfold C; rewrite <- Zlt_Qlt; lia).
      lra.
Qed.

Lemma py_truediv_ratio (a b : Z) :
  b <> 0 -> py_truediv a b = Ok (quotient a b).
Proof.
  intros Hb. unfold py_truediv, quotient, ratio.
  destruct b as [| d | d]; [congruence | |]; f_equal;
    apply binary64_Qeq;
    unfold Qeq, Qdiv, Qmult, Qinv, inject_Z; simpl; lia.
Qed.

Lemma py_gt_spec (x : Q) (n : Z) :
  py_gt x n = true <-> (inject_Z n < x)%Q.
Proof.
  unfold py_gt. rewrite negb_true_iff.
  split.
  - intros H. apply Qnot_le_lt. intros Hle.
    apply Qle_bool_iff in Hle. congruence.
  - intros H. destruct (Qle_bool x (inject_Z n)) eqn:E; [|reflexivity].
    apply Qle_bool_iff in E. exfalso. apply (Qlt_not_le _ _ H E).
Qed.

(** ** Quotients as Python computes them *)

Lemma quotient_Qmake (a : Z) (d : positive) :
  binary64 (a # d) = quotient a (Zpos d).
Proof. apply binary64_Qeq, Qmake_ratio. Qed.

Lemma quotient_mono (a b c d : Z) :
  (ratio a b <= ratio c d)%Q -> (quotient a b <= quotient c d)%Q.
Proof. apply binary64_mono. Qed.

Lemma quotient_le_int (a b k : Z) :
  0 <= k < 2 ^ 53 ->
  (ratio a b <= inject_Z k)%Q -> (quotient a b <= inject_Z k)%Q.
Proof. apply binary64_le_int. Qed.

Lemma quotient_gt_exact (a b k : Z) :
  0 <= k < 2 ^ 53 ->
  (inject_Z k < quotient a b)%Q -> (inject_Z k < ratio a b)%Q.
Proof.
  intros Hk H. apply Qnot_le_lt. intros Hle.
  pose proof (quotient_le_int a b k Hk Hle). lra.
Qed.

Lemma ratio_gt (c p s : Z) :
  1 <= s -> (inject_Z c < ratio p s)%Q <-> c * s < p.
Proof.
  intros Hs. unfold ratio, Qlt, Qdiv, Qmult, Qinv, inject_Z.
  destruct s as [| d | d]; try lia. cbn [Qnum Qden]. lia.
Qed.

(** For fewer than 2^18 shards the size per shard compares with an
    integer below 2^36 as the exact quotient does. *)
Lemma quotient_gt_small (c p s : Z) :
  0 < c < 2 ^ 36 -> 1 <= s < 2 ^ 18 ->
  (inject_Z c < quotient p s)%Q <-> (inject_Z c < ratio p s)%Q.
Proof.
  intros Hc Hs. rewrite (ratio_gt c p s) by lia.
  destruct s as [| d | d]; try lia.
  rewrite <- quotient_Qmake. apply binary64_gt_int; lia.
Qed.

(** Below 2^52 the double quotient rounds as the exact quotient does. *)
Lemma quotient_round_small (a b : Z) :
  0 <= a < 2 ^ 52 -> 1 <= b ->
  py_round (quotient a b) = py_round (ratio a b).
Proof.
  intros Ha Hb. destruct b as [| d | d]; try lia.
  rewrite <- quotient_Qmake, (binary64_round_small a d Ha).
  apply py_round_Qeq, Qmake_ratio.
Qed.

(** The rounded quotient by 30 GiB, as it is computed, stays within one
    half and a relative 2^-53 of the exact quotient. *)
Lemma units_within (p : Z) :
  let x := (inject_Z p * (1 # 32212254720))%Q in
  let n := inject_Z (py_round (quotient p 32212254720)) in
  (x - Qabs x * (1 # 9007199254740992) - (1 # 2) <= n
   /\ n <= x + Qabs x * (1 # 9007199254740992) + (1 # 2))%Q.
Proof.
  intros x n.
  assert (Hx : (ratio p 32212254720 == x)%Q) by reflexivity.
  pose proof (binary64_relative (ratio p 32212254720)) as R.
  fold (quotient p 32212254720) in R. rewrite Hx in R.
  change (1 # 2 ^ 53)%Q with (1 # 9007199254740992)%Q in R.
  apply Qabs_Qle_condition in R.
  destruct (py_round_within (quotient p 32212254720)) as [W1 W2].
  fold n in W1, W2. split; lra.
Qed.

(** A negative shard count is never below the rounded quotient when the
    size per shard exceeds 45 GiB. *)
Lemma units_below_negative (p s : Z) :
  s <= -1 -> p < 48318382080 * s ->
  py_round (quotient p 32212254720) <= s.
Proof.
  intros Hs Hp. destruct (units_within p) as [_ U]. cbv zeta in U.
  assert (HP : (inject_Z p < inject_Z (48318382080 * s))%Q)
    by (rewrite <- Zlt_Qlt; exact Hp).
  assert (HS : (inject_Z s <= inject_Z (-1))%Q)
    by (rewrite <- Zle_Qle; exact Hs).
  rewrite inject_Z_mult in HP.
  change (inject_Z 48318382080) with (48318382080 # 1)%Q in HP.
  change (inject_Z (-1)) with (-1 # 1)%Q in HS.
  set (P := inject_Z p) in *. set (S := inject_Z s) in *.
  rewrite (Qabs_neg (P * (1 # 32212254720))) in U by lra.
  assert (K : py_round (quotient p 32212254720) < s + 1); [| lia].
  rewrite Zlt_Qlt, inject_Z_plus. change (inject_Z 1) with 1%Q.
  fold S. lra.
Qed.

(** Above 45 GiB the size fits 45 GiB per shard of the rounded
    quotient. *)
Lemma units_fit (p : Z) :
  48318382080 < p ->
  p <= 48318382080 * py_round (quotient p 32212254720).
Proof.
  intros Hp. destruct (units_within p) as [L _]. cbv zeta in L.
  assert (HP : (inject_Z (48318382080 + 1) <= inject_Z p)%Q)
    by (rewrite <- Zle_Qle; lia).
  change (inject_Z (48318382080 + 1)) with (48318382081 # 1)%Q in HP.
  rewrite Zle_Qle, inject_Z_mult.
  change (inject_Z 48318382080) with (48318382080 # 1)%Q.
  set (P := inject_Z p) in *.
  rewrite (Qabs_pos (P * (1 # 32212254720))) in L by lra.
  lra.
Qed.

(** The exact rounded quotient by 30 GiB exceeds the shard count when
    the exact size per shard exceeds 45 GiB, and the size lies within a
    quarter of 30 GiB per new shard. *)
Lemma exact_units_above (p s : Z) :
  1 <= s -> (inject_Z 48318382080 < ratio p s)%Q ->
  s < py_round (ratio p 32212254720) /\
  3 * 32212254720 * py_round (ratio p 32212254720) <= 4 * p
  <= 5 * 32212254720 * py_round (ratio p 32212254720).
Proof.
  intros Hs Hlt. apply (ratio_gt 48318382080 p s Hs) in Hlt.
  rewrite <- (py_round_Qeq _ _ (Qmake_ratio p 32212254720)).
  destruct (py_round_nearest (p # 32212254720)) as [Hn _].
  cbn [Qnum Qden] in Hn. lia.
Qed.

(** ** Running the program *)

Section Runs.

Variable es : Cluster.

Lemma c_timeout_minutes_ok (self : IndexOptimizer) :
  _datanodes self <> 0 ->
  exists x, c_timeout_minutes self = Ok (1 + py_round x) /\
            x = quotient (_indices self) (_datanodes self).
Proof.
  intros HD. unfold c_timeout_minutes.
  rewrite (py_truediv_ratio (_indices self) (_datanodes self) HD).
  eexists. split; reflexivity.
Qed.

Lemma c_timeout_minutes_zero (self : IndexOptimizer) :
  _datanodes self = 0 -> c_timeout_minutes self = Raise ZeroDivisionError.
Proof. intros HD. unfold c_timeout_minutes. rewrite HD. reflexivity. Qed.

Lemma r_timeout_hours_ok (primary_size : Z) :
  r_timeout_hours primary_size
  = Ok (1 + py_round (binary64 (primary_size # 500000000))).
Proof. reflexivity. Qed.

Lemma index_replace_run self index shards w minutes :
  c_timeout_minutes self = Ok minutes ->
  index_replace es self index shards w
  = (Ok tt, {| log := log w ++ replace_calls es self index shards w minutes;
               drawn := S (drawn w) |}).
Proof.
  intros Hm. unfold index_replace, replace_calls.
  unfold bind, uuid4, index_get_config, index_create, index_get_stats,
    index_reindex, index_delete, alias_update, index_forcemerge, send,
    lift, ret, bind; cbn [log drawn].
  rewrite Hm, r_timeout_hours_ok. cbn [log drawn].
  do 2 f_equal. rewrite <- !app_assoc. reflexivity.
Qed.

Lemma index_replace_stop self index shards w :
  _datanodes self = 0 ->
  index_replace es self index shards w
  = (Raise ZeroDivisionError,
     {| log := log w ++ [IndexGetConfig index]; drawn := S (drawn w) |}).
Proof.
  intros HD. unfold index_replace.
  unfold bind, uuid4, index_get_config, send, lift, ret, bind;
    cbn [log drawn].
  rewrite (c_timeout_minutes_zero self HD). reflexivity.
Qed.

Lemma issued_app {A} (m : M A) (w : World) (r : result A) cs n :
  m w = (r, {| log := log w ++ cs; drawn := n |}) ->
  issued m w = cs /\ outcome m w = r.
Proof.
  intros H. unfold issued, outcome. rewrite H. cbn [fst snd log].
  split; [apply drop_app_length | reflexivity].
Qed.

End Runs.

(** ** The driver *)

Section Driver.

Variable es : Cluster.
Variable self : IndexOptimizer.
Variable index : string.
Variable w : World.

Let s := shards_seen es index w.
Let p := primary_size_seen es index w.
Let candidate := py_round (quotient p 32212254720).

Lemma index_optimize_shards_run :
  index_optimize_shards es self index w
  = if (p <? size_2gb) && (s >? 1) then
      index_replace es self index 1 (fetched index w)
    else
      match py_truediv p s with
      | Raise e => (Raise e, fetched index w)
      | Ok x =>
          if py_gt x size_45gb && (s <? candidate) then
            index_replace es self index candidate (fetched index w)
          else (Ok tt, fetched index w)
      end.
Proof.
  subst candidate. rewrite <- quotient_Qmake.
  subst s p. unfold shards_seen, primary_size_seen, fetched, sent, fetches.
  unfold index_optimize_shards.
  unfold bind at 1. unfold index_get_config at 1.
  unfold bind at 1, send at 1, ret at 1. cbn [log drawn].
  unfold bind at 1. unfold index_get_stats at 1.
  unfold bind at 1, send at 1, ret at 1. cbn [log drawn].
  rewrite <- !app_assoc. cbn [app].
  destruct (_ && _); [reflexivity |].
  unfold bind at 1, lift at 1.
  destruct (py_truediv _ _) as [x | e]; [| reflexivity].
  destruct (py_gt x size_45gb); [| reflexivity].
  unfold bind at 1, lift at 1. cbn [py_truediv size_30gb].
  cbn [andb]. destruct (_ <? _); reflexivity.
Qed.

(** Rule 1: consolidate. *)
Lemma driver_consolidates :
  p < size_2gb -> 1 < s ->
  index_optimize_shards es self index w
  = index_replace es self index 1 (fetched index w).
Proof.
  intros Hp Hs. rewrite index_optimize_shards_run.
  fold s p.
  replace (p <? size_2gb) with true by (symmetry; apply Z.ltb_lt; lia).
  replace (s >? 1) with true by (symmetry; rewrite Z.gtb_ltb; apply Z.ltb_lt; lia).
  reflexivity.
Qed.

(** A zero shard count: the division of rule 2 raises. *)
Lemma driver_zero_shards :
  s = 0 ->
  index_optimize_shards es self index w
  = (Raise ZeroDivisionError, fetched index w).
Proof.
  intros Hs. rewrite index_optimize_shards_run. fold s p.
  replace (s >? 1) with false by (symmetry; rewrite Z.gtb_ltb; apply Z.ltb_ge; lia).
  rewrite andb_false_r, Hs. reflexivity.
Qed.

(** Rule 2: expand, on the quotients as they are computed. *)
Lemma driver_expands :
  ~ (p < size_2gb /\ 1 < s) -> s <> 0 ->
  (inject_Z size_45gb < quotient p s)%Q -> s < candidate ->
  index_optimize_shards es self index w
  = index_replace es self index candidate (fetched index w).
Proof.
  intros Hno Hs Hgt Hc. rewrite index_optimize_shards_run. fold s p.
  replace ((p <? size_2gb) && (s >? 1)) with false.
  2:{ symmetry. apply andb_false_iff. rewrite Z.gtb_ltb, !Z.ltb_ge. lia. }
  rewrite (py_truediv_ratio p s Hs).
  replace (py_gt (quotient p s) size_45gb) with true.
  2:{ symmetry. apply py_gt_spec. exact Hgt. }
  replace (s <? candidate) with true by (symmetry; apply Z.ltb_lt; lia).
  reflexivity.
Qed.

(** Rule 3: nothing to do, on the quotients as they are computed. *)
Lemma driver_idles :
  ~ (p < size_2gb /\ 1 < s) -> s <> 0 ->
  (quotient p s <= inject_Z size_45gb)%Q \/ candidate <= s ->
  index_optimize_shards es self index w = (Ok tt, fetched index w).
Proof.
  intros Hno Hs Hor. rewrite index_optimize_shards_run. fold s p.
  replace ((p <? size_2gb) && (s >? 1)) with false.
  2:{ symmetry. apply andb_false_iff. rewrite Z.gtb_ltb, !Z.ltb_ge. lia. }
  rewrite (py_truediv_ratio p s Hs).
  replace (py_gt (quotient p s) size_45gb && (s <? candidate)) with false;
    [reflexivity|].
  symmetry. apply andb_false_iff. destruct Hor as [Hle | Hle].
  - left. destruct (py_gt (quotient p s) size_45gb) eqn:E; [|reflexivity].
    apply py_gt_spec in E.
    exfalso. apply (Qlt_not_le _ _ E Hle).
  - right. apply Z.ltb_ge. lia.
Qed.

(** Nothing to do when the exact size per shard is at most 45 GiB: the
    double of a quotient that does not exceed 45 GiB does not either. *)
Lemma driver_idles_small :
  ~ (p < size_2gb /\ 1 < s) -> s <> 0 ->
  (ratio p s <= inject_Z size_45gb)%Q ->
  index_optimize_shards es self index w = (Ok tt, fetched index w).
Proof.
  intros Hno Hs Hle. apply driver_idles; [exact Hno | exact Hs |].
  left. apply quotient_le_int; [unfold size_45gb; lia | exact Hle].
Qed.

Lemma fetched_only (r : result unit) :
  index_optimize_shards es self index w = (r, fetched index w) ->
  issued (index_optimize_shards es self index) w = fetches index /\
  outcome (index_optimize_shards es self index) w = r.
Proof. intros H. apply (issued_app _ _ _ _ _ H). Qed.

End Driver.

(** ** One complete run *)

(** An index "logs" of 4 shards and 1.5 GiB of primaries on a cluster of
    3 data nodes and 10 indices: the driver fetches, then replaces the
    index by one of a single shard, reindexing in 4 slices. *)
Example logs_consolidated :
  index_optimize_shards (steady 4 (3 * GiB / 2) 1 true) (optimizer 3 10)
    "logs" fresh
  = (Ok tt,
     {| log :=
          [ IndexGetConfig "logs";
            IndexGetStats "logs";
            IndexGetConfig "logs";
            IndexCreate "uuid-0" (Some (JDict []))
              (Some (<[ "number_of_replicas" := JInt 1 ]>
                       {[ "number_of_shards" := JInt 1 ]}))
              (Some "4m"%string);
            IndexGetStats "logs";
            IndexReindex "logs" "uuid-0" (Some 4) (Some "4h"%string);
            IndexDelete "logs";
            AliasUpdate "uuid-0" "logs" "add";
            IndexForcemerge "uuid-0" ];
        drawn := 1 |}).
Proof. reflexivity. Qed.

Example optimizer_of_snapshot :
  outcome (IndexOptimizer_init (steady 4 GiB 1 true)) fresh
  = Ok (optimizer 3 10)
  /\ issued (IndexOptimizer_init (steady 4 GiB 1 true)) fresh
     = [ClusterGetStats].
Proof. split; reflexivity. Qed.

(** Quotients whose double differs from the exact value: a third is
    the double 6004799503160661 / 2^54; 16777216250000001 / 500000000
    is 33554432.5 plus a billionth of a half, its double is 33554432.5
    and rounds to the even 33554432; 2^53 + 1 is not a double. *)
Example doubles_of_quotients :
  (quotient 1 3 == 6004799503160661 # 18014398509481984)%Q
  /\ r_timeout_hours 16777216250000001 = Ok 33554433
  /\ py_round (ratio 16777216250000001 500000000) = 33554433
  /\ py_round (quotient 16888514708766721 32212254720) = 524288
  /\ py_round (ratio 16888514708766721 32212254720) = 524289
  /\ c_timeout_minutes (optimizer 1 9007199254740993)
     = Ok 9007199254740993.
Proof. repeat split; reflexivity. Qed.

(** ** The sizing rules *)

(** C3. An index with at least one shard and less than 2 GiB of
    primaries: with more than one shard the driver enters the replace
    workflow with 1 shard; with exactly one shard it does nothing more
    than its two fetches. *)
Theorem consolidate_rule (es : Cluster) (self : IndexOptimizer)
    (index : string) (w : World) :
  1 <= shards_seen es index w ->
  primary_size_seen es index w < 2147483648 ->
  (1 < shards_seen es index w ->
   index_optimize_shards es self index w
   = index_replace es self index 1 (fetched index w)) /\
  (shards_seen es index w = 1 ->
   issued (index_optimize_shards es self index) w = fetches index /\
   outcome (index_optimize_shards es self index) w = Ok tt).
Proof.
  intros Hs Hp. split.
  - intros H1. apply driver_consolidates; [exact Hp | exact H1].
  - intros H1. apply fetched_only. apply driver_idles_small.
    + lia.
    + lia.
    + rewrite H1. unfold ratio, Qle, Qdiv, Qmult, Qinv, inject_Z.
      simpl. unfold size_45gb. lia.
Qed.

Lemma consolidate_rule_witness :
  index_optimize_shards (steady 4 GiB 1 true) (optimizer 3 10) "logs" fresh
  = index_replace (steady 4 GiB 1 true) (optimizer 3 10) "logs" 1
      (fetched "logs" fresh)
  /\ issued (index_optimize_shards (steady 1 GiB 1 true) (optimizer 3 10)
               "logs") fresh = fetches "logs".
Proof.
  split.
  - apply (consolidate_rule (steady 4 GiB 1 true) (optimizer 3 10) "logs"
             fresh); vm_compute; first [reflexivity | discriminate].
  - apply (consolidate_rule (steady 1 GiB 1 true) (optimizer 3 10) "logs"
             fresh); vm_compute; first [reflexivity | discriminate].
Defined.

(** C4, as the code has it. An index with at least one and fewer than
    2^18 shards, and a primary size that is not negative and below 2^52
    bytes, that the consolidate rule does not match: when the primary
    size per shard exceeds 45 GiB and [round(primary size / 30 GiB)]
    exceeds the shard count, the driver enters the replace workflow with
    that many shards; when the size per shard is at most 45 GiB, or the
    rounded quotient does not exceed the shard count, it does nothing
    more than its two fetches. Within these bounds the doubles the
    driver computes decide as the exact quotients do. *)
Theorem expand_rule (es : Cluster) (self : IndexOptimizer)
    (index : string) (w : World) :
  let s := shards_seen es index w in
  let p := primary_size_seen es index w in
  let candidate := py_round (ratio p 32212254720) in
  1 <= s < 262144 ->
  0 <= p < 4503599627370496 ->
  ~ (p < 2147483648 /\ 1 < s) ->
  ((inject_Z 48318382080 < ratio p s)%Q -> s < candidate ->
   index_optimize_shards es self index w
   = index_replace es self index candidate (fetched index w)) /\
  ((ratio p s <= inject_Z 48318382080)%Q \/ candidate <= s ->
   issued (index_optimize_shards es self index) w = fetches index /\
   outcome (index_optimize_shards es self index) w = Ok tt).
Proof.
  intros s p candidate Hs Hp Hno.
  assert (Hc : py_round (quotient p 32212254720) = candidate).
  { apply quotient_round_small; [exact Hp | lia]. }
  split.
  - intros Hgt Hlt. rewrite <- Hc. apply driver_expands; fold s p.
    + exact Hno.
    + lia.
    + apply quotient_gt_small; [unfold size_45gb; lia | exact Hs | exact Hgt].
    + rewrite Hc. exact Hlt.
  - intros Hor. apply fetched_only. apply driver_idles; fold s p.
    + exact Hno.
    + lia.
    + destruct Hor as [Hle | Hle].
      * left. apply quotient_le_int; [unfold size_45gb; lia | exact Hle].
      * right. rewrite Hc. exact Hle.
Qed.

Lemma expand_rule_witness :
  index_optimize_shards (steady 1 (48 * GiB) 1 true) (optimizer 3 10)
    "logs" fresh
  = index_replace (steady 1 (48 * GiB) 1 true) (optimizer 3 10) "logs" 2
      (fetched "logs" fresh)
  /\ issued (index_optimize_shards (steady 5 (48 * GiB) 1 true)
               (optimizer 3 10) "logs") fresh = fetches "logs".
Proof.
  split.
  - apply (expand_rule (steady 1 (48 * GiB) 1 true) (optimizer 3 10) "logs"
             fresh).
    + vm_compute. split; [discriminate | reflexivity].
    + vm_compute. split; [discriminate | reflexivity].
    + vm_compute. intros [H _]; discriminate H.
    + vm_compute. reflexivity.
    + vm_compute. reflexivity.
  - apply (expand_rule (steady 5 (48 * GiB) 1 true) (optimizer 3 10) "logs"
             fresh).
    + vm_compute. split; [discriminate | reflexivity].
    + vm_compute. split; [discriminate | reflexivity].
    + vm_compute. intros [H _]; discriminate H.
    + left. vm_compute. discriminate.
Defined.

(** C4 as the specification words it fails on sizes the doubles cannot
    tell apart: with 524288 shards and one byte more than 45 GiB per
    shard, the exact size per shard exceeds 45 GiB and the rounded
    quotient by 30 GiB exceeds the shard count, but the double of the
    size per shard is 45 GiB itself and the driver does nothing. *)
Lemma expand_rule_beyond_doubles :
  let es := steady 524288 (48318382080 * 524288 + 1) 1 true in
  let s := shards_seen es "logs" fresh in
  let p := primary_size_seen es "logs" fresh in
  1 <= s /\
  ~ (p < 2147483648 /\ 1 < s) /\
  (inject_Z 48318382080 < ratio p s)%Q /\
  s < py_round (ratio p 32212254720) /\
  issued (index_optimize_shards es (optimizer 3 10) "logs") fresh
  = fetches "logs".
Proof.
  cbv zeta. repeat split.
  - vm_compute. discriminate.
  - vm_compute. intros [H _]. discriminate H.
Qed.

(** ** Shard counts below one *)

(** With a zero or negative shard count the driver stops after its two
    fetches: at zero by the exception of the division, below zero
    because no rule matches (a quotient above 45 GiB then needs a
    negative size, whose rounded quotient by 30 GiB lies below the shard
    count). *)
Lemma driver_below_one (es : Cluster) (self : IndexOptimizer)
    (index : string) (w : World) :
  shards_seen es index w < 1 ->
  index_optimize_shards es self index w
  = (if shards_seen es index w =? 0 then Raise ZeroDivisionError
     else Ok tt, fetched index w).
Proof.
  intros Hs. destruct (Z.eqb_spec (shards_seen es index w) 0) as [E | E].
  - apply driver_zero_shards. exact E.
  - apply driver_idles; [lia | exact E |].
    set (s := shards_seen es index w) in *.
    set (p := primary_size_seen es index w) in *.
    destruct (Qlt_le_dec (inject_Z size_45gb) (quotient p s)) as [Hlt | Hle];
      [right | left; exact Hle].
    apply quotient_gt_exact in Hlt; [| unfold size_45gb; lia].
    apply units_below_negative; [lia |].
    destruct s as [| d | d]; try lia.
    unfold ratio, Qlt, Qdiv, Qmult, Qinv, inject_Z in Hlt.
    cbn [Qnum Qden] in Hlt. unfold size_45gb in Hlt. lia.
Qed.

(** C6, as the code has it. For an index whose shard count is below 1
    the driver issues its two read-only fetches and nothing else; at
    shard count 0 it fails at once with [ZeroDivisionError]; at a
    negative shard count it returns normally. *)
Theorem below_one_shard_no_mutation (es : Cluster) (self : IndexOptimizer)
    (index : string) (w : World) :
  shards_seen es index w < 1 ->
  issued (index_optimize_shards es self index) w = fetches index /\
  Forall (fun c => mutating c = false)
    (issued (index_optimize_shards es self index) w) /\
  outcome (index_optimize_shards es self index) w
  = if shards_seen es index w =? 0 then Raise ZeroDivisionError else Ok tt.
Proof.
  intros Hs.
  destruct (fetched_only es self index w _
              (driver_below_one es self index w Hs)) as [Hi Ho].
  rewrite Hi. repeat split.
  - repeat constructor.
  - exact Ho.
Qed.

Lemma below_one_shard_no_mutation_witness :
  outcome (index_optimize_shards (steady 0 GiB 1 true) (optimizer 3 10)
             "logs") fresh = Raise ZeroDivisionError
  /\ issued (index_optimize_shards (steady 0 GiB 1 true) (optimizer 3 10)
               "logs") fresh = fetches "logs".
Proof.
  destruct (below_one_shard_no_mutation (steady 0 GiB 1 true)
              (optimizer 3 10) "logs" fresh) as (Hi & _ & Ho).
  - vm_compute. reflexivity.
  - split; [exact Ho | exact Hi].
Defined.

(** C6 as the specification words it fails: an index with -1 shards has
    a shard count below 1, and the driver returns normally. *)
Lemma negative_shards_return_normally :
  shards_seen (steady (-1) GiB 1 true) "logs" fresh < 1 /\
  outcome (index_optimize_shards (steady (-1) GiB 1 true) (optimizer 3 10)
             "logs") fresh = Ok tt.
Proof. split; reflexivity. Qed.

(** ** No rule, no mutation *)

Lemma driver_no_rule (es : Cluster) (self : IndexOptimizer)
    (index : string) (w : World) :
  let s := shards_seen es index w in
  let p := primary_size_seen es index w in
  let candidate := py_round (ratio p 32212254720) in
  ~ (p < 2147483648 /\ 1 < s) ->
  ~ (s <> 0 /\ (inject_Z 48318382080 < ratio p s)%Q /\ s < candidate) ->
  issued (index_optimize_shards es self index) w = fetches index /\
  Forall (fun c => mutating c = false)
    (issued (index_optimize_shards es self index) w).
Proof.
  intros s p candidate H1 H2.
  assert (exists r, index_optimize_shards es self index w
                    = (r, fetched index w)) as [r Hr].
  { destruct (Z_lt_le_dec s 1) as [Hs | Hs].
    - eexists. apply driver_below_one. exact Hs.
    - eexists. apply driver_idles_small; [exact H1 | fold s; lia |].
      destruct (Qlt_le_dec (inject_Z size_45gb) (ratio p s)) as [Hlt | Hle];
        [| exact Hle].
      exfalso. apply H2. split; [lia |]. split; [exact Hlt |].
      apply (exact_units_above p s Hs Hlt). }
  destruct (fetched_only es self index w r Hr) as [Hi _].
  rewrite Hi. split; [reflexivity | repeat constructor].
Qed.

(** C8. When neither rule matches what the driver reads (the size is not
    below 2 GiB with more than one shard, and it is not the case that
    the size per shard exceeds 45 GiB with a rounded quotient above the
    shard count), the driver issues its two fetches, both read-only, and
    no other call. This holds from every world, so also from the one a
    first invocation leaves: a second invocation that again finds no
    rule to match mutates nothing. *)
Theorem idle_driver_reads_only (es : Cluster) (self : IndexOptimizer)
    (index : string) (w : World) :
  let no_rule (w : World) :=
    let s := shards_seen es index w in
    let p := primary_size_seen es index w in
    ~ (p < 2147483648 /\ 1 < s) /\
    ~ (s <> 0 /\ (inject_Z 48318382080 < ratio p s)%Q /\
       s < py_round (ratio p 32212254720)) in
  let reads_only (w : World) :=
    issued (index_optimize_shards es self index) w = fetches index /\
    Forall (fun c => mutating c = false)
      (issued (index_optimize_shards es self index) w) in
  (no_rule w -> reads_only w) /\
  (let w' := snd (index_optimize_shards es self index w) in
   no_rule w' -> reads_only w').
Proof.
  cbv zeta. split; intros [H1 H2]; apply driver_no_rule; assumption.
Qed.

Lemma idle_driver_reads_only_witness :
  issued (index_optimize_shards (steady 1 GiB 1 true) (optimizer 3 10)
            "logs") fresh = fetches "logs"
  /\ Forall (fun c => mutating c = false)
       (issued (index_optimize_shards (steady 1 GiB 1 true)
                  (optimizer 3 10) "logs")
          (snd (index_optimize_shards (steady 1 GiB 1 true)
                  (optimizer 3 10) "logs" fresh))).
Proof.
  pose proof (idle_driver_reads_only (steady 1 GiB 1 true) (optimizer 3 10)
                "logs" fresh) as [Ha Hb].
  split.
  - apply Ha. split.
    + vm_compute. intros [_ H]. discriminate H.
    + vm_compute. intros (_ & H & _). discriminate H.
  - apply Hb. split.
    + vm_compute. intros [_ H]. discriminate H.
    + vm_compute. intros (_ & H & _). discriminate H.
Defined.

(** ** The replace workflow *)

Section Workflow.

Variable es : Cluster.
Variable self : IndexOptimizer.
Variable index : string.
Variable shards : Z.
Variable w : World.

(** Either the snapshot has no data node and the workflow stops at the
    division, or it runs all of its calls. *)
Lemma index_replace_cases :
  (_datanodes self = 0 /\
   issued (index_replace es self index shards) w = [IndexGetConfig index] /\
   outcome (index_replace es self index shards) w = Raise ZeroDivisionError)
  \/
  (_datanodes self <> 0 /\
   exists x,
     x = quotient (_indices self) (_datanodes self) /\
     issued (index_replace es self index shards) w
     = replace_calls es self index shards w (1 + py_round x) /\
     outcome (index_replace es self index shards) w = Ok tt).
Proof.
  destruct (Z.eq_dec (_datanodes self) 0) as [E | E].
  - left. split; [exact E |].
    apply (issued_app _ _ _ _ _ (index_replace_stop es self index shards w E)).
  - right. split; [exact E |].
    destruct (c_timeout_minutes_ok self E) as (x & Hm & Hx).
    exists x. split; [exact Hx |].
    apply (issued_app _ _ _ _ _
             (index_replace_run es self index shards w _ Hm)).
Qed.

End Workflow.

(** Splits a membership in an explicit list into its cases. *)
Ltac elem_cases H :=
  repeat (apply elem_of_cons in H; destruct H as [H | H]);
  [ .. | apply elem_of_nil in H; contradiction ].

(** C1, as the code has it. When the reindex call of a replace workflow
    reports failure, the workflow raises nothing and goes on exactly as
    after a success: it deletes the source index, binds the source's
    name as an alias of the replacement and force-merges the
    replacement. *)
Theorem reindex_failure_ignored (es : Cluster) (self : IndexOptimizer)
    (index : string) (shards : Z) (w : World)
    (new_index : string) (slices : option Z) (timeout : option string) :
  (IndexReindex index new_index slices timeout, false)
    ∈ exchanges es (index_replace es self index shards) w ->
  outcome (index_replace es self index shards) w = Ok tt /\
  exists before,
    issued (index_replace es self index shards) w
    = before ++ [IndexReindex index new_index slices timeout;
                 IndexDelete index;
                 AliasUpdate new_index index "add";
                 IndexForcemerge new_index].
Proof.
  intros Hin. unfold exchanges in Hin.
  destruct (index_replace_cases es self index shards w)
    as [(_ & Hi & _) | (_ & x & _ & Hi & Ho)]; rewrite Hi in *.
  - cbn [answered] in Hin. elem_cases Hin. discriminate Hin.
  - split; [exact Ho |].
    unfold replace_calls in *. cbn [answered] in Hin.
    elem_cases Hin; try discriminate Hin.
    injection Hin as -> -> -> _.
    eexists [_; _; _]. reflexivity.
Qed.

(** C2, as the code has it. When the create call of a replace workflow
    reports failure, the workflow raises nothing and issues every
    remaining call: the stats fetch, the reindex, the deletion of the
    source, the alias update and the force-merge. *)
Theorem create_failure_ignored (es : Cluster) (self : IndexOptimizer)
    (index : string) (shards : Z) (w : World)
    (new_index : string) (c_mapping : option json)
    (settings : option (gmap string json)) (timeout : option string) :
  (IndexCreate new_index c_mapping settings timeout, false)
    ∈ exchanges es (index_replace es self index shards) w ->
  outcome (index_replace es self index shards) w = Ok tt /\
  exists slices r_timeout,
    issued (index_replace es self index shards) w
    = [IndexGetConfig index;
       IndexCreate new_index c_mapping settings timeout;
       IndexGetStats index;
       IndexReindex index new_index slices r_timeout;
       IndexDelete index;
       AliasUpdate new_index index "add";
       IndexForcemerge new_index].
Proof.
  intros Hin. unfold exchanges in Hin.
  destruct (index_replace_cases es self index shards w)
    as [(_ & Hi & _) | (_ & x & _ & Hi & Ho)]; rewrite Hi in *.
  - cbn [answered] in Hin. elem_cases Hin. discriminate Hin.
  - split; [exact Ho |].
    unfold replace_calls in *. cbn [answered] in Hin.
    elem_cases Hin; try discriminate Hin.
    injection Hin as -> -> -> -> _.
    eexists _, _. reflexivity.
Qed.

Lemma reindex_failure_ignored_witness :
  outcome (index_replace (steady 4 GiB 1 false) (optimizer 3 10) "logs" 1)
    fresh = Ok tt.
Proof.
  apply (reindex_failure_ignored (steady 4 GiB 1 false) (optimizer 3 10)
           "logs" 1 fresh "uuid-0" (Some 4) (Some "3h"%string)).
  apply list_elem_of_lookup. exists 3%nat. reflexivity.
Defined.

Lemma create_failure_ignored_witness :
  outcome (index_replace (steady 4 GiB 1 false) (optimizer 3 10) "logs" 1)
    fresh = Ok tt.
Proof.
  apply (create_failure_ignored (steady 4 GiB 1 false) (optimizer 3 10)
           "logs" 1 fresh "uuid-0" (Some (JDict []))
           (Some (c_setting (optimizer 3 10)
                    (config_of (steady 4 GiB 1 false) []) 1))
           (Some "4m"%string)).
  apply list_elem_of_lookup. exists 1%nat. reflexivity.
Defined.

(** C1 as the specification words it fails: on a cluster that answers
    every call with a failure, the reindex is the fourth exchange and
    reports failure, yet the workflow returns normally and its next
    call deletes the source index. *)
Lemma reindex_failure_deletes_source :
  exchanges (steady 4 GiB 1 false)
    (index_replace (steady 4 GiB 1 false) (optimizer 3 10) "logs" 1) fresh
    !! 3%nat
  = Some (IndexReindex "logs" "uuid-0" (Some 4) (Some "3h"%string), false)
  /\ outcome (index_replace (steady 4 GiB 1 false) (optimizer 3 10)
                "logs" 1) fresh = Ok tt
  /\ issued (index_replace (steady 4 GiB 1 false) (optimizer 3 10)
               "logs" 1) fresh !! 4%nat = Some (IndexDelete "logs").
Proof. repeat split; reflexivity. Qed.

(** C2 as the specification words it fails: on the same cluster the
    create is the second exchange and reports failure, yet the reindex
    and the deletion of the source follow. *)
Lemma create_failure_deletes_source :
  exchanges (steady 4 GiB 1 false)
    (index_replace (steady 4 GiB 1 false) (optimizer 3 10) "logs" 1) fresh
    !! 1%nat
  = Some (IndexCreate "uuid-0" (Some (JDict []))
            (Some (c_setting (optimizer 3 10)
                     (config_of (steady 4 GiB 1 false) []) 1))
            (Some "4m"%string), false)
  /\ issued (index_replace (steady 4 GiB 1 false) (optimizer 3 10)
               "logs" 1) fresh !! 3%nat
     = Some (IndexReindex "logs" "uuid-0" (Some 4) (Some "3h"%string))
  /\ issued (index_replace (steady 4 GiB 1 false) (optimizer 3 10)
               "logs" 1) fresh !! 4%nat = Some (IndexDelete "logs").
Proof. repeat split; reflexivity. Qed.

Lemma index_replace_answering (es : Cluster) (ok : list Call -> bool)
    (self : IndexOptimizer) (index : string) (shards : Z) (w : World) :
  index_replace (answering es ok) self index shards w
  = index_replace es self index shards w.
Proof.
  destruct (Z.eq_dec (_datanodes self) 0) as [E | E].
  - rewrite !index_replace_stop by exact E. reflexivity.
  - destruct (c_timeout_minutes_ok self E) as (x & Hm & _).
    rewrite !(index_replace_run _ _ _ _ _ _ Hm). reflexivity.
Qed.

(** C10, as the code has it. With a snapshot whose data-node count is not
    zero, and with both fetches answered by the config and the stats of
    the source, every replace workflow issues the same seven calls in
    the same order: fetch the source config, create the replacement,
    fetch the source stats, reindex the source into the replacement,
    delete the source, bind the source's name as an alias of the
    replacement, force-merge the replacement; and it returns normally.
    Whatever statuses the cluster reports for the five calls that
    change it (create, reindex, delete, alias update, force-merge), the
    calls and the outcome are the same. *)
Theorem replace_sequence_fixed (es : Cluster) (self : IndexOptimizer)
    (index : string) (shards : Z) (w : World) :
  _datanodes self <> 0 ->
  (exists new_index c_mapping settings c_timeout slices r_timeout,
     issued (index_replace es self index shards) w
     = [IndexGetConfig index;
        IndexCreate new_index c_mapping settings c_timeout;
        IndexGetStats index;
        IndexReindex index new_index slices r_timeout;
        IndexDelete index;
        AliasUpdate new_index index "add";
        IndexForcemerge new_index] /\
     outcome (index_replace es self index shards) w = Ok tt) /\
  (forall ok : list Call -> bool,
     (forall h c, mutating c = false ->
                  ok (h ++ [c]) = ok_of es (h ++ [c])) ->
     issued (index_replace (answering es ok) self index shards) w
     = issued (index_replace es self index shards) w /\
     outcome (index_replace (answering es ok) self index shards) w
     = outcome (index_replace es self index shards) w).
Proof.
  intros HD. split.
  - destruct (index_replace_cases es self index shards w)
      as [(E & _) | (_ & x & _ & Hi & Ho)]; [contradiction |].
    rewrite Hi, Ho. unfold replace_calls.
    eexists _, _, _, _, _, _. split; reflexivity.
  - intros ok _. unfold issued, outcome.
    rewrite index_replace_answering. split; reflexivity.
Qed.

Lemma replace_sequence_fixed_witness :
  issued (index_replace (answering (steady 4 GiB 1 true) failing_mutations)
            (optimizer 3 10) "logs" 1) fresh
  = issued (index_replace (steady 4 GiB 1 true) (optimizer 3 10) "logs" 1)
      fresh
  /\ exchanges (answering (steady 4 GiB 1 true) failing_mutations)
       (index_replace (answering (steady 4 GiB 1 true) failing_mutations)
          (optimizer 3 10) "logs" 1) fresh !! 4%nat
     = Some (IndexDelete "logs", false).
Proof.
  split; [| reflexivity].
  apply (replace_sequence_fixed (steady 4 GiB 1 true) (optimizer 3 10)
           "logs" 1 fresh).
  - vm_compute. discriminate.
  - intros h c Hc. unfold failing_mutations.
    rewrite last_snoc, Hc. reflexivity.
Defined.

(** C10 as worded fails on a snapshot without data nodes: the division
    for the creation timeout raises once the source config is fetched,
    and no other call is issued. *)
Lemma replace_without_datanodes :
  issued (index_replace (steady 4 GiB 1 true) (optimizer 0 10) "logs" 1)
    fresh = [IndexGetConfig "logs"]
  /\ outcome (index_replace (steady 4 GiB 1 true) (optimizer 0 10)
                "logs" 1) fresh = Raise ZeroDivisionError.
Proof. split; reflexivity. Qed.

(** ** The plan: replicas and timeouts *)

Lemma capped_replicas_le (self : IndexOptimizer) (idx_cfg : IndexConfig) :
  capped_replicas self idx_cfg <= _datanodes self /\
  (number_of_replicas idx_cfg <= _datanodes self ->
   capped_replicas self idx_cfg = number_of_replicas idx_cfg).
Proof.
  unfold capped_replicas. rewrite Z.gtb_ltb.
  destruct (Z.ltb_spec (_datanodes self) (number_of_replicas idx_cfg));
    lia.
Qed.

Lemma c_setting_replicas (self : IndexOptimizer) (idx_cfg : IndexConfig)
    (shards : Z) :
  c_setting self idx_cfg shards !! "number_of_replicas"
  = Some (JInt (capped_replicas self idx_cfg)).
Proof. unfold c_setting. apply lookup_insert_eq. Qed.

(** C7. The settings of every create call of a replace workflow hold a
    replica count that does not exceed the data-node count of the
    snapshot, and that is the configured replica count of the source
    whenever this one is within the bound. *)
Theorem replicas_capped (es : Cluster) (self : IndexOptimizer)
    (index : string) (shards : Z) (w : World)
    (new_index : string) (c_mapping : option json)
    (settings : gmap string json) (timeout : option string) :
  IndexCreate new_index c_mapping (Some settings) timeout
    ∈ issued (index_replace es self index shards) w ->
  let configured :=
    number_of_replicas (config_of es (log w ++ [IndexGetConfig index])) in
  exists replicas,
    settings !! "number_of_replicas" = Some (JInt replicas) /\
    replicas <= _datanodes self /\
    (configured <= _datanodes self -> replicas = configured).
Proof.
  intros Hin configured.
  destruct (index_replace_cases es self index shards w)
    as [(_ & Hi & _) | (_ & x & _ & Hi & _)]; rewrite Hi in Hin.
  - elem_cases Hin. discriminate Hin.
  - unfold replace_calls in Hin. elem_cases Hin; try discriminate Hin.
    injection Hin as _ _ -> _.
    eexists. split; [apply c_setting_replicas |].
    apply capped_replicas_le.
Qed.

Lemma replicas_capped_witness :
  exists replicas,
    c_setting (optimizer 3 10) (config_of (steady 4 GiB 7 true) []) 1
      !! "number_of_replicas" = Some (JInt replicas) /\
    replicas <= 3.
Proof.
  destruct (replicas_capped (steady 4 GiB 7 true) (optimizer 3 10) "logs" 1
              fresh "uuid-0" (Some (JDict []))
              (c_setting (optimizer 3 10)
                 (config_of (steady 4 GiB 7 true) []) 1)
              (Some "4m"%string)) as (r & H1 & H2 & _).
  - apply list_elem_of_lookup. exists 1%nat. reflexivity.
  - exists r. split; [exact H1 | exact H2].
Defined.

(** C5, as the code has it. In a replace workflow on a snapshot with at
    least one data node and an index count that is not negative and
    below 2^52, the create call carries the timeout
    [1 + round(index count / data-node count)] minutes, which is at
    least 1; and when the primary size of the stats fetched in between
    is not negative and below 2^52 bytes, the reindex call carries the
    timeout [1 + round(primary size / 500000000)] hours, which is at
    least 1. Here [round] rounds the exact quotient to the nearest
    integer, a tie to the even one: within these bounds the double the
    code rounds gives the same integer. *)
Theorem timeouts_of_plan (es : Cluster) (self : IndexOptimizer)
    (index : string) (shards : Z) (w : World) :
  1 <= _datanodes self ->
  0 <= _indices self < 4503599627370496 ->
  let calls := issued (index_replace es self index shards) w in
  let p := size_in_bytes (stats_of es (log w ++ take 3 calls)) in
  let minutes := 1 + py_round (ratio (_indices self) (_datanodes self)) in
  let hours := 1 + py_round (ratio p 500000000) in
  (exists new_index c_mapping settings,
     calls !! 1%nat
     = Some (IndexCreate new_index c_mapping settings
               (Some (py_str minutes ++ "m")%string))) /\
  1 <= minutes /\
  (0 <= p < 4503599627370496 ->
   (exists new_index slices,
      calls !! 3%nat
      = Some (IndexReindex index new_index slices
                (Some (py_str hours ++ "h")%string))) /\
   1 <= hours).
Proof.
  intros HD HI. cbv zeta.
  destruct (index_replace_cases es self index shards w)
    as [(E & _) | (_ & x & Hx & Hi & _)]; [lia |].
  rewrite Hi, Hx. rewrite (quotient_round_small _ _ HI HD).
  unfold replace_calls. cbn [take lookup list_lookup].
  rewrite <- !app_assoc. cbn [app].
  set (p := size_in_bytes (stats_of es _)).
  split; [eexists _, _, _; reflexivity |]. split.
  - pose proof (py_round_nonneg _ (ratio_nonneg _ _ (proj1 HI) HD)). lia.
  - intros Hp. rewrite quotient_Qmake.
    rewrite (quotient_round_small p 500000000 Hp ltac:(lia)). split.
    + eexists _, _. reflexivity.
    + pose proof (py_round_nonneg _
                    (ratio_nonneg p 500000000 (proj1 Hp) ltac:(lia))).
      lia.
Qed.

Lemma timeouts_of_plan_witness :
  (exists new_index c_mapping settings,
     issued (index_replace (steady 4 GiB 1 true) (optimizer 3 10) "logs" 1)
       fresh !! 1%nat
     = Some (IndexCreate new_index c_mapping settings (Some "4m"%string)))
  /\ (exists new_index slices,
        issued (index_replace (steady 4 GiB 1 true) (optimizer 3 10)
                  "logs" 1) fresh !! 3%nat
        = Some (IndexReindex "logs" new_index slices (Some "3h"%string))).
Proof.
  destruct (timeouts_of_plan (steady 4 GiB 1 true) (optimizer 3 10) "logs" 1
              fresh) as (Hc & _ & Hr).
  - vm_compute. discriminate.
  - vm_compute. split; [discriminate | reflexivity].
  - split; [exact Hc |]. apply Hr.
    vm_compute. split; [discriminate | reflexivity].
Defined.

(** C5 as the specification words it fails: with 10 indices on 10 data
    nodes the creation timeout is 2 minutes where the ceiling of the
    ratio is 1, and with 500000000 bytes of primaries the reindex
    timeout is 2 hours where the ceiling of the quotient is 1. *)
Lemma timeouts_exceed_ceiling :
  c_timeout_minutes (optimizer 10 10) = Ok 2 /\
  Z.max 1 (Qceiling (ratio 10 10)) = 1 /\
  r_timeout_hours 500000000 = Ok 2 /\
  Z.max 1 (Qceiling (ratio 500000000 500000000)) = 1.
Proof. repeat split; reflexivity. Qed.

(** C9. On snapshots with at least one data node, a larger ratio of
    index count to data-node count never gives a smaller creation
    timeout; a larger primary size never gives a smaller reindex
    timeout. *)
Theorem timeouts_monotone (self1 self2 : IndexOptimizer) (p1 p2 : Z) :
  (1 <= _datanodes self1 -> 1 <= _datanodes self2 ->
   (ratio (_indices self1) (_datanodes self1)
    <= ratio (_indices self2) (_datanodes self2))%Q ->
   exists m1 m2,
     c_timeout_minutes self1 = Ok m1 /\
     c_timeout_minutes self2 = Ok m2 /\ m1 <= m2) /\
  (p1 <= p2 ->
   exists h1 h2,
     r_timeout_hours p1 = Ok h1 /\ r_timeout_hours p2 = Ok h2 /\
     h1 <= h2).
Proof.
  split.
  - intros H1 H2 Hle.
    destruct (c_timeout_minutes_ok self1 ltac:(lia)) as (x1 & E1 & Hx1).
    destruct (c_timeout_minutes_ok self2 ltac:(lia)) as (x2 & E2 & Hx2).
    exists (1 + py_round x1), (1 + py_round x2).
    repeat split; [exact E1 | exact E2 |].
    apply Z.add_le_mono_l. apply py_round_mono.
    rewrite Hx1, Hx2. apply quotient_mono. exact Hle.
  - intros Hle. exists (1 + py_round (binary64 (p1 # 500000000))),
      (1 + py_round (binary64 (p2 # 500000000))).
    repeat split; try apply r_timeout_hours_ok.
    apply Z.add_le_mono_l. apply py_round_mono. apply binary64_mono.
    unfold Qle. simpl. lia.
Qed.

Lemma timeouts_monotone_witness :
  (exists m1 m2,
     c_timeout_minutes (optimizer 3 10) = Ok m1 /\
     c_timeout_minutes (optimizer 3 20) = Ok m2 /\ m1 <= m2) /\
  (exists h1 h2,
     r_timeout_hours GiB = Ok h1 /\ r_timeout_hours (48 * GiB) = Ok h2 /\
     h1 <= h2).
Proof.
  destruct (timeouts_monotone (optimizer 3 10) (optimizer 3 20) GiB
              (48 * GiB)) as [Hc Hr].
  split.
  - apply Hc; vm_compute; discriminate.
  - apply Hr. vm_compute. discriminate.
Defined.

(** * Further properties of the driver *)

Section DriverShapes.

Variable es : Cluster.
Variable self : IndexOptimizer.
Variable index : string.
Variable w : World.

Let s := shards_seen es index w.
Let p := primary_size_seen es index w.
Let candidate := py_round (quotient p 32212254720).

(** The runs of the driver: idle, stopped by the division at zero
    shards, or handed to the replace workflow by one of the rules. *)
Lemma driver_shapes :
  index_optimize_shards es self index w = (Ok tt, fetched index w)
  \/ (s = 0 /\
      index_optimize_shards es self index w
      = (Raise ZeroDivisionError, fetched index w))
  \/ (p < size_2gb /\ 1 < s /\
      index_optimize_shards es self index w
      = index_replace es self index 1 (fetched index w))
  \/ (1 <= s /\
      ((inject_Z size_45gb < quotient p s)%Q /\ s < candidate) /\
      index_optimize_shards es self index w
      = index_replace es self index candidate (fetched index w)).
Proof.
  destruct (Z_lt_le_dec s 1) as [Hs | Hs].
  - pose proof (driver_below_one es self index w Hs) as H. fold s in H.
    destruct (Z.eqb_spec s 0) as [E | E]; [right; left | left]; auto.
  - destruct (Z_lt_le_dec p size_2gb) as [Hp | Hp];
      [destruct (Z.eq_dec s 1) as [E | E] |].
    + left. apply driver_idles_small; fold s p; [lia | lia |].
      rewrite E. unfold ratio, Qle, Qdiv, Qmult, Qinv, inject_Z.
      cbn [Qnum Qden]. unfold size_2gb, size_45gb in *. lia.
    + right; right; left. repeat split; [exact Hp | lia |].
      apply driver_consolidates; fold s p; lia.
    + destruct (Qlt_le_dec (inject_Z size_45gb) (quotient p s)) as [Hl | Hl];
        [destruct (Z_lt_le_dec s candidate) as [Hc | Hc] |].
      * right; right; right. repeat split; [exact Hs | exact Hl | exact Hc |].
        apply driver_expands; fold s p; try lia; assumption.
      * left. apply driver_idles; fold s p; [lia | lia | right; exact Hc].
      * left. apply driver_idles; fold s p; [lia | lia | left; exact Hl].
Qed.

End DriverShapes.

(** The calls of a driver that hands over to the replace workflow. *)
Lemma issued_handover (es : Cluster) (self : IndexOptimizer)
    (index : string) (w : World) (n : Z) :
  index_optimize_shards es self index w
  = index_replace es self index n (fetched index w) ->
  issued (index_optimize_shards es self index) w
  = fetches index ++ issued (index_replace es self index n)
                       (fetched index w) /\
  outcome (index_optimize_shards es self index) w
  = outcome (index_replace es self index n) (fetched index w).
Proof.
  intros H. unfold issued, outcome. rewrite H. split; [| reflexivity].
  assert (Hgen : forall r cs d,
    index_replace es self index n (fetched index w)
    = (r, {| log := log (fetched index w) ++ cs; drawn := d |}) ->
    drop (length (log w))
      (log (snd (index_replace es self index n (fetched index w))))
    = fetches index
      ++ drop (length (log (fetched index w)))
           (log (snd (index_replace es self index n (fetched index w))))).
  { intros r cs d Hr. rewrite Hr. cbn [snd log].
    rewrite drop_app_length. unfold fetched, sent. cbn [log].
    rewrite <- app_assoc, drop_app_length. reflexivity. }
  destruct (Z.eq_dec (_datanodes self) 0) as [E | E].
  - apply (Hgen _ _ _ (index_replace_stop es self index n _ E)).
  - destruct (c_timeout_minutes_ok self E) as (x & Hm & _).
    apply (Hgen _ _ _ (index_replace_run es self index n _ _ Hm)).
Qed.

(** X1. With at least one and fewer than 2^18 shards, a primary size
    below 2^52 bytes and more than 45 GiB of primaries per shard, the
    driver always hands over to the replace workflow: the comparison of
    the shard count with [round(size / 30 GiB)] cannot fail there. The
    new shard count exceeds the old one, and the size lies between
    22.5 GiB and 37.5 GiB per new shard. *)
Theorem oversized_always_expands (es : Cluster) (self : IndexOptimizer)
    (index : string) (w : World) :
  let s := shards_seen es index w in
  let p := primary_size_seen es index w in
  let n := py_round (ratio p 32212254720) in
  1 <= s < 262144 -> p < 4503599627370496 ->
  (inject_Z 48318382080 < ratio p s)%Q ->
  index_optimize_shards es self index w
  = index_replace es self index n (fetched index w) /\
  s < n /\
  3 * 32212254720 * n <= 4 * p <= 5 * 32212254720 * n.
Proof.
  intros s p n Hs Hp Hlt.
  destruct (exact_units_above p s (proj1 Hs) Hlt) as [Hn Hb].
  fold n in Hn, Hb.
  split; [| split; [exact Hn | exact Hb]].
  pose proof (proj1 (ratio_gt 48318382080 p s (proj1 Hs)) Hlt) as Hz.
  assert (Hc : py_round (quotient p 32212254720) = n).
  { apply quotient_round_small; lia. }
  rewrite <- Hc. apply driver_expands; fold s p.
  - unfold size_2gb. lia.
  - lia.
  - apply quotient_gt_small; [unfold size_45gb; lia | exact Hs | exact Hlt].
  - rewrite Hc. exact Hn.
Qed.

Lemma oversized_always_expands_witness :
  index_optimize_shards (steady 3 (200 * GiB) 1 true) (optimizer 3 10)
    "logs" fresh
  = index_replace (steady 3 (200 * GiB) 1 true) (optimizer 3 10) "logs" 7
      (fetched "logs" fresh).
Proof.
  apply (oversized_always_expands (steady 3 (200 * GiB) 1 true)
           (optimizer 3 10) "logs" fresh).
  - vm_compute. split; [discriminate | reflexivity].
  - vm_compute. reflexivity.
  - vm_compute. reflexivity.
Defined.

Lemma c_setting_shards (self : IndexOptimizer) (idx_cfg : IndexConfig)
    (shards : Z) :
  c_setting self idx_cfg shards !! "number_of_shards" = Some (JInt shards).
Proof.
  unfold c_setting. rewrite lookup_insert_ne by discriminate.
  destruct (analysis idx_cfg).
  - rewrite lookup_insert_ne by discriminate. apply lookup_singleton_eq.
  - apply lookup_singleton_eq.
Qed.

(** The create call of a driver run tells which rule fired. *)
Lemma driver_create_inv (es : Cluster) (self : IndexOptimizer)
    (index : string) (w : World) (new_index : string)
    (c_mapping : option json) (settings : gmap string json)
    (timeout : option string) (n : Z) :
  IndexCreate new_index c_mapping (Some settings) timeout
    ∈ issued (index_optimize_shards es self index) w ->
  settings !! "number_of_shards" = Some (JInt n) ->
  let s := shards_seen es index w in
  let p := primary_size_seen es index w in
  (n = 1 /\ p < size_2gb /\ 1 < s) \/
  (n = py_round (quotient p 32212254720) /\ 1 <= s /\
   (inject_Z size_45gb < quotient p s)%Q).
Proof.
  intros Hin Hn s p.
  assert (Hrep : forall m,
    index_optimize_shards es self index w
    = index_replace es self index m (fetched index w) -> n = m).
  { intros m Hm. destruct (issued_handover es self index w m Hm) as [Hi _].
    rewrite Hi in Hin. apply elem_of_app in Hin. destruct Hin as [Hin | Hin].
    - unfold fetches in Hin. elem_cases Hin; discriminate Hin.
    - destruct (index_replace_cases es self index m (fetched index w))
        as [(_ & Hj & _) | (_ & x & _ & Hj & _)]; rewrite Hj in Hin.
      + elem_cases Hin. discriminate Hin.
      + unfold replace_calls in Hin. elem_cases Hin; try discriminate Hin.
        injection Hin as _ _ -> _.
        rewrite c_setting_shards in Hn. congruence. }
  destruct (driver_shapes es self index w)
    as [H | [(_ & H) | [(Hp & Hs & H) | (Hs & Hl & H)]]].
  - destruct (fetched_only es self index w _ H) as [Hi _].
    rewrite Hi in Hin. unfold fetches in Hin.
    elem_cases Hin; discriminate Hin.
  - destruct (fetched_only es self index w _ H) as [Hi _].
    rewrite Hi in Hin. unfold fetches in Hin.
    elem_cases Hin; discriminate Hin.
  - left. rewrite (Hrep _ H). auto.
  - right. rewrite (Hrep _ H). destruct Hl as [Hl _]. auto.
Qed.

(** X2. The shard count the driver chooses is one it leaves alone: when
    a driver run has created a replacement with [n] shards, a driver
    that later reads [n] shards and the same primary size issues its
    two fetches and nothing else. *)
Theorem chosen_shards_stable (es es' : Cluster)
    (self self' : IndexOptimizer) (index index' : string) (w w' : World)
    (new_index : string) (c_mapping : option json)
    (settings : gmap string json) (timeout : option string) (n : Z) :
  IndexCreate new_index c_mapping (Some settings) timeout
    ∈ issued (index_optimize_shards es self index) w ->
  settings !! "number_of_shards" = Some (JInt n) ->
  shards_seen es' index' w' = n ->
  primary_size_seen es' index' w' = primary_size_seen es index w ->
  issued (index_optimize_shards es' self' index') w' = fetches index' /\
  outcome (index_optimize_shards es' self' index') w' = Ok tt.
Proof.
  intros Hin Hn Hs' Hp'. apply fetched_only.
  destruct (driver_create_inv es self index w _ _ _ _ n Hin Hn)
    as [(E & Hp & Hs) | (E & Hs & Hl)].
  - apply driver_idles_small; rewrite ?Hs', ?Hp'; [lia | lia |].
    rewrite E. unfold ratio, Qle, Qdiv, Qmult, Qinv, inject_Z.
    cbn [Qnum Qden]. unfold size_2gb, size_45gb in *. lia.
  - apply quotient_gt_exact in Hl; [| unfold size_45gb; lia].
    apply (ratio_gt _ _ _ Hs) in Hl. unfold size_45gb in Hl.
    assert (Hbig : 48318382080 < primary_size_seen es index w) by nia.
    pose proof (units_fit _ Hbig) as Hfit. rewrite <- E in Hfit.
    assert (Hn1 : 1 <= n) by nia.
    apply driver_idles_small; rewrite ?Hs', ?Hp';
      [unfold size_2gb; lia | lia |].
    unfold ratio, Qle, Qdiv, Qmult, Qinv, inject_Z.
    destruct n as [| d | d]; try lia.
    cbn [Qnum Qden]. unfold size_45gb. lia.
Qed.

Lemma chosen_shards_stable_witness :
  issued (index_optimize_shards (steady 7 (200 * GiB) 1 true)
            (optimizer 3 10) "logs") fresh = fetches "logs".
Proof.
  apply (chosen_shards_stable (steady 3 (200 * GiB) 1 true)
           (steady 7 (200 * GiB) 1 true) (optimizer 3 10) (optimizer 3 10)
           "logs" "logs" fresh fresh "uuid-0" (Some (JDict []))
           (c_setting (optimizer 3 10)
              (config_of (steady 3 (200 * GiB) 1 true) []) 7)
           (Some "4m"%string) 7).
  - apply list_elem_of_lookup. exists 3%nat. reflexivity.
  - reflexivity.
  - reflexivity.
  - reflexivity.
Defined.

(** X3. The timeouts leave room. With at least one data node and an
    index count that is not negative and below 2^52, the creation
    timeout in minutes times the data-node count exceeds the index
    count; with a primary size that is not negative and below 2^52, the
    reindex timeout in hours times 500000000 exceeds the primary size;
    neither overshoots by more than one and a half units. *)
Theorem timeouts_cover (self : IndexOptimizer) (primary_size : Z) :
  (1 <= _datanodes self -> 0 <= _indices self < 4503599627370496 ->
   exists minutes,
     c_timeout_minutes self = Ok minutes /\
     _indices self < minutes * _datanodes self /\
     2 * minutes * _datanodes self
     <= 2 * _indices self + 3 * _datanodes self) /\
  (0 <= primary_size < 4503599627370496 ->
   exists hours,
     r_timeout_hours primary_size = Ok hours /\
     primary_size < hours * 500000000 /\
     2 * hours * 500000000 <= 2 * primary_size + 3 * 500000000).
Proof.
  split.
  - intros HD HI.
    destruct (c_timeout_minutes_ok self ltac:(lia)) as (x & -> & ->).
    eexists. split; [reflexivity |].
    rewrite (quotient_round_small _ _ HI HD).
    destruct (_datanodes self) as [| d | d]; try lia.
    rewrite <- (py_round_Qeq _ _ (Qmake_ratio (_indices self) d)).
    destruct (py_round_nearest (_indices self # d)) as [Hn _].
    cbn [Qnum Qden] in Hn. lia.
  - intros Hp. eexists. split; [apply r_timeout_hours_ok |].
    rewrite quotient_Qmake.
    rewrite (quotient_round_small primary_size 500000000 Hp ltac:(lia)).
    rewrite <- (py_round_Qeq _ _ (Qmake_ratio primary_size 500000000)).
    destruct (py_round_nearest (primary_size # 500000000)) as [Hn _].
    cbn [Qnum Qden] in Hn. lia.
Qed.

Lemma timeouts_cover_witness :
  (exists minutes,
     c_timeout_minutes (optimizer 3 10) = Ok minutes /\
     10 < minutes * 3)
  /\ (exists hours,
        r_timeout_hours GiB = Ok hours /\ GiB < hours * 500000000).
Proof.
  destruct (timeouts_cover (optimizer 3 10) GiB) as [Hc Hr].
  destruct Hc as (m & Hm & Hlt & _).
  - vm_compute. discriminate.
  - vm_compute. split; [discriminate | reflexivity].
  - destruct Hr as (h & Hh & Hlt' & _).
    + vm_compute. split; [discriminate | reflexivity].
    + split; [exists m | exists h]; split; assumption.
Defined.

(** ** What the driver never does *)

Lemma replace_log (es : Cluster) (self : IndexOptimizer) (index : string)
    (n : Z) (w : World) :
  log (snd (index_replace es self index n w))
  = log w ++ issued (index_replace es self index n) w.
Proof.
  unfold issued.
  destruct (Z.eq_dec (_datanodes self) 0) as [E | E].
  - rewrite (index_replace_stop es self index n w E). cbn [snd log].
    rewrite drop_app_length. reflexivity.
  - destruct (c_timeout_minutes_ok self E) as (x & Hm & _).
    rewrite (index_replace_run es self index n w _ Hm). cbn [snd log].
    rewrite drop_app_length. reflexivity.
Qed.

Lemma driver_log (es : Cluster) (self : IndexOptimizer) (index : string)
    (w : World) :
  log (snd (index_optimize_shards es self index w))
  = log w ++ issued (index_optimize_shards es self index) w.
Proof.
  destruct (driver_shapes es self index w)
    as [H | [(_ & H) | [(_ & _ & H) | (_ & _ & H)]]].
  - destruct (fetched_only es self index w _ H) as [Hi _].
    rewrite Hi, H. reflexivity.
  - destruct (fetched_only es self index w _ H) as [Hi _].
    rewrite Hi, H. reflexivity.
  - destruct (issued_handover es self index w _ H) as [Hi _].
    rewrite Hi, H, replace_log, app_assoc. reflexivity.
  - destruct (issued_handover es self index w _ H) as [Hi _].
    rewrite Hi, H, replace_log, app_assoc. reflexivity.
Qed.

Lemma replace_touches_only (es : Cluster) (self : IndexOptimizer)
    (index : string) (n : Z) (w : World) :
  Forall (replaces index (uuid_of es (drawn w)))
    (issued (index_replace es self index n) w).
Proof.
  destruct (index_replace_cases es self index n w)
    as [(_ & Hi & _) | (_ & x & _ & Hi & _)]; rewrite Hi.
  - repeat constructor.
  - unfold replace_calls. repeat constructor.
Qed.

(** X4. Whatever the driver issues concerns the index it was given and
    the one replacement it names: it fetches config and stats of the
    source only, creates and force-merges the replacement only, reindexes
    from the source into the replacement only, deletes the source only,
    and its only alias update adds the source's name to the
    replacement. It never asks for cluster health or stats. *)
Theorem driver_touches_only (es : Cluster) (self : IndexOptimizer)
    (index : string) (w : World) :
  Forall (replaces index (uuid_of es (drawn w)))
    (issued (index_optimize_shards es self index) w).
Proof.
  assert (Hf : Forall (replaces index (uuid_of es (drawn w)))
                 (fetches index)) by (repeat constructor).
  destruct (driver_shapes es self index w)
    as [H | [(_ & H) | [(_ & _ & H) | (_ & _ & H)]]].
  - destruct (fetched_only es self index w _ H) as [-> _]. exact Hf.
  - destruct (fetched_only es self index w _ H) as [-> _]. exact Hf.
  - destruct (issued_handover es self index w _ H) as [-> _].
    apply Forall_app. split; [exact Hf |].
    apply (replace_touches_only es self index _ (fetched index w)).
  - destruct (issued_handover es self index w _ H) as [-> _].
    apply Forall_app. split; [exact Hf |].
    apply (replace_touches_only es self index _ (fetched index w)).
Qed.

(** X5. The driver never reads a status: on a cluster that differs in
    its [response.ok] answers only, it issues the same calls and ends
    the same way, whether or not a rule matches and whatever the
    snapshot. *)
Theorem driver_ignores_statuses (es : Cluster) (ok : list Call -> bool)
    (self : IndexOptimizer) (index : string) (w : World) :
  index_optimize_shards (answering es ok) self index w
  = index_optimize_shards es self index w.
Proof.
  rewrite !index_optimize_shards_run.
  change (shards_seen (answering es ok) index w)
    with (shards_seen es index w).
  change (primary_size_seen (answering es ok) index w)
    with (primary_size_seen es index w).
  rewrite !index_replace_answering. reflexivity.
Qed.

(** X6. A driver run that deletes the source has issued all nine calls,
    in order: the two fetches, then the whole replace workflow, with
    the creation of the replacement and the reindex before the deletion
    and the alias update after it; and it returns normally. *)
Theorem delete_only_in_full_run (es : Cluster) (self : IndexOptimizer)
    (index : string) (w : World) (deleted : string) :
  IndexDelete deleted ∈ issued (index_optimize_shards es self index) w ->
  deleted = index /\
  outcome (index_optimize_shards es self index) w = Ok tt /\
  exists new_index c_mapping settings c_timeout slices r_timeout,
    issued (index_optimize_shards es self index) w
    = [IndexGetConfig index;
       IndexGetStats index;
       IndexGetConfig index;
       IndexCreate new_index c_mapping settings c_timeout;
       IndexGetStats index;
       IndexReindex index new_index slices r_timeout;
       IndexDelete index;
       AliasUpdate new_index index "add";
       IndexForcemerge new_index].
Proof.
  intros Hin.
  assert (Hrep : forall n,
    index_optimize_shards es self index w
    = index_replace es self index n (fetched index w) ->
    deleted = index /\
    outcome (index_optimize_shards es self index) w = Ok tt /\
    exists new_index c_mapping settings c_timeout slices r_timeout,
      issued (index_optimize_shards es self index) w
      = [IndexGetConfig index; IndexGetStats index; IndexGetConfig index;
         IndexCreate new_index c_mapping settings c_timeout;
         IndexGetStats index;
         IndexReindex index new_index slices r_timeout;
         IndexDelete index; AliasUpdate new_index index "add";
         IndexForcemerge new_index]).
  { intros n H. destruct (issued_handover es self index w n H) as [Hi Ho].
    rewrite Hi, Ho in *. clear Hi Ho.
    apply elem_of_app in Hin. destruct Hin as [Hin | Hin].
    { unfold fetches in Hin. elem_cases Hin; discriminate Hin. }
    destruct (index_replace_cases es self index n (fetched index w))
      as [(_ & Hj & _) | (_ & x & _ & Hj & Ho)]; rewrite Hj in *.
    { elem_cases Hin. discriminate Hin. }
    unfold replace_calls in *. elem_cases Hin; try discriminate Hin.
    injection Hin as ->. split; [reflexivity |]. split; [exact Ho |].
    eexists _, _, _, _, _, _. reflexivity. }
  destruct (driver_shapes es self index w)
    as [H | [(_ & H) | [(_ & _ & H) | (_ & _ & H)]]].
  - destruct (fetched_only es self index w _ H) as [Hi _].
    rewrite Hi in Hin. unfold fetches in Hin.
    elem_cases Hin; discriminate Hin.
  - destruct (fetched_only es self index w _ H) as [Hi _].
    rewrite Hi in Hin. unfold fetches in Hin.
    elem_cases Hin; discriminate Hin.
  - apply (Hrep _ H).
  - apply (Hrep _ H).
Qed.

Lemma delete_only_in_full_run_witness :
  outcome (index_optimize_shards (steady 4 GiB 1 false) (optimizer 3 10)
             "logs") fresh = Ok tt.
Proof.
  apply (delete_only_in_full_run (steady 4 GiB 1 false) (optimizer 3 10)
           "logs" fresh "logs").
  apply list_elem_of_lookup. exists 6%nat. reflexivity.
Defined.

(** ** Construction and optimisation together *)

Lemma optimize_issued (es : Cluster) (index : string) (w : World) :
  exists self,
    _datanodes self
    = nodes_count_data (cluster_stats_of es (log w ++ [ClusterGetStats])) /\
    _indices self
    = indices_count (cluster_stats_of es (log w ++ [ClusterGetStats])) /\
    issued (optimize es index) w
    = ClusterGetStats
      :: issued (index_optimize_shards es self index)
           (sent w [ClusterGetStats]) /\
    outcome (optimize es index) w
    = outcome (index_optimize_shards es self index)
        (sent w [ClusterGetStats]).
Proof.
  set (cs := cluster_stats_of es (log w ++ [ClusterGetStats])).
  exists {| _datanodes := nodes_count_data cs;
            _indices := indices_count cs;
            _shards := indices_shards_total cs |}.
  split; [reflexivity |]. split; [reflexivity |].
  set (self := {| _datanodes := nodes_count_data cs |}).
  assert (Hrun : optimize es index w
                 = index_optimize_shards es self index
                     (sent w [ClusterGetStats])) by reflexivity.
  unfold issued at 1, outcome at 1. rewrite Hrun. split; [| reflexivity].
  rewrite driver_log. unfold sent at 1. cbn [log].
  rewrite <- app_assoc, drop_app_length. reflexivity.
Qed.

(** X7. An optimizer constructed on a cluster that reports no data node
    never mutates the cluster: whatever the index looks like, every
    call of construction and optimisation together is a read. *)
Theorem no_datanodes_no_mutation (es : Cluster) (index : string)
    (w : World) :
  nodes_count_data (cluster_stats_of es (log w ++ [ClusterGetStats])) = 0 ->
  Forall (fun c => mutating c = false) (issued (optimize es index) w).
Proof.
  intros HD. destruct (optimize_issued es index w) as (self & E & _ & -> & _).
  rewrite <- E in HD. constructor; [reflexivity |].
  set (w1 := sent w [ClusterGetStats]).
  assert (Hf : Forall (fun c => mutating c = false) (fetches index))
    by (repeat constructor).
  assert (Hrep : forall n,
    Forall (fun c => mutating c = false)
      (issued (index_replace es self index n) (fetched index w1))).
  { intros n.
    destruct (index_replace_cases es self index n (fetched index w1))
      as [(_ & -> & _) | (E' & _)]; [repeat constructor | contradiction]. }
  destruct (driver_shapes es self index w1)
    as [H | [(_ & H) | [(_ & _ & H) | (_ & _ & H)]]].
  - destruct (fetched_only es self index w1 _ H) as [-> _]. exact Hf.
  - destruct (fetched_only es self index w1 _ H) as [-> _]. exact Hf.
  - destruct (issued_handover es self index w1 _ H) as [-> _].
    apply Forall_app. split; [exact Hf | apply Hrep].
  - destruct (issued_handover es self index w1 _ H) as [-> _].
    apply Forall_app. split; [exact Hf | apply Hrep].
Qed.

Lemma no_datanodes_no_mutation_witness :
  Forall (fun c => mutating c = false)
    (issued (optimize (counting 0 (steady 4 GiB 1 true)) "logs") fresh).
Proof.
  apply (no_datanodes_no_mutation (counting 0 (steady 4 GiB 1 true)) "logs"
           fresh).
  reflexivity.
Defined.

(** * The requests on the wire *)

Lemma verb_http_method (baseurl : string) (health : gmap string pyval)
    (c : Call) :
  verb (request_of baseurl health c) = http_method c.
Proof. destruct c; reflexivity. Qed.


(** X10. On a snapshot with data nodes a replace workflow sends seven
    requests: it reads the source and its stats at the source's URL,
    puts the replacement at the URL of the drawn name, posts the
    reindex, deletes at the source's URL, posts the alias, and posts the
    force-merge at the replacement's URL. *)
Theorem replace_on_the_wire (baseurl : string)
    (health : gmap string pyval) (es : Cluster) (self : IndexOptimizer)
    (index : string) (shards : Z) (w : World) :
  _datanodes self <> 0 ->
  let new_index := uuid_of es (drawn w) in
  map line (map (request_of baseurl health)
              (issued (index_replace es self index shards) w))
  = [ (GET, (baseurl ++ "/") ++ index);
      (PUT, (baseurl ++ "/") ++ new_index);
      (GET, ((baseurl ++ "/") ++ index) ++ "/_stats");
      (POST, baseurl ++ "/_reindex");
      (DELETE, (baseurl ++ "/") ++ index);
      (POST, baseurl ++ "/_aliases");
      (POST, ((baseurl ++ "/") ++ new_index) ++ "/_forcemerge") ]%string.
Proof.
  intros HD new_index.
  destruct (index_replace_cases es self index shards w)
    as [(E & _) | (_ & x & _ & -> & _)]; [contradiction |].
  reflexivity.
Qed.

Lemma replace_on_the_wire_witness :
  map line (map (request_of "http://es:9200" ∅)
              (issued (index_replace (steady 4 GiB 1 true) (optimizer 3 10)
                         "logs" 1) fresh))
  = [ (GET, "http://es:9200/logs");
      (PUT, "http://es:9200/uuid-0");
      (GET, "http://es:9200/logs/_stats");
      (POST, "http://es:9200/_reindex");
      (DELETE, "http://es:9200/logs");
      (POST, "http://es:9200/_aliases");
      (POST, "http://es:9200/uuid-0/_forcemerge") ]%string.
Proof.
  apply (replace_on_the_wire "http://es:9200" ∅ (steady 4 GiB 1 true)
           (optimizer 3 10) "logs" 1 fresh).
  vm_compute. discriminate.
Defined.

(** X11. In a replace workflow on a snapshot with data nodes both long
    requests are synchronous: the create request waits for all active
    shards and the reindex request waits for completion, each within a
    timeout; and the reindex is sliced by the total shard count of the
    stats fetched inside the workflow, not by the configured shard
    count. *)
Theorem replace_requests_wait (baseurl : string)
    (health : gmap string pyval) (es : Cluster) (self : IndexOptimizer)
    (index : string) (shards : Z) (w : World) :
  _datanodes self <> 0 ->
  let calls := issued (index_replace es self index shards) w in
  let index_stats := stats_of es (log w ++ take 3 calls) in
  exists create reindex pc pr,
    calls !! 1%nat = Some create /\
    calls !! 3%nat = Some reindex /\
    params (request_of baseurl health create) = Some pc /\
    params (request_of baseurl health reindex) = Some pr /\
    pc !! "wait_for_active_shards" = Some (VStr "all") /\
    is_Some (pc !! "timeout") /\
    pr !! "wait_for_completion" = Some (VStr "true") /\
    is_Some (pr !! "timeout") /\
    pr !! "slices" = Some (VInt (shards_total index_stats)).
Proof.
  intros HD. cbv zeta.
  destruct (index_replace_cases es self index shards w)
    as [(E & _) | (_ & x & _ & -> & _)]; [contradiction |].
  unfold replace_calls. cbn [take lookup list_lookup].
  rewrite <- !app_assoc. cbn [app].
  eexists _, _, _, _. split; [reflexivity |]. split; [reflexivity |].
  split; [reflexivity |]. split; [reflexivity |].
  repeat split; eexists; reflexivity.
Qed.

Lemma replace_requests_wait_witness :
  exists reindex pr,
    issued (index_replace (steady 4 GiB 1 true) (optimizer 3 10) "logs" 1)
      fresh !! 3%nat = Some reindex /\
    params (request_of "http://es:9200" ∅ reindex) = Some pr /\
    pr !! "slices" = Some (VInt 4).
Proof.
  destruct (replace_requests_wait "http://es:9200" ∅ (steady 4 GiB 1 true)
              (optimizer 3 10) "logs" 1 fresh)
    as (c & r & pc & pr & _ & Hr & _ & Hp & _ & _ & _ & _ & Hs).
  - vm_compute. discriminate.
  - exists r, pr. split; [exact Hr |]. split; [exact Hp | exact Hs].
Defined.

Lemma c_setting_analysis (self : IndexOptimizer) (idx_cfg : IndexConfig)
    (shards : Z) :
  c_setting self idx_cfg shards !! "analysis" = analysis idx_cfg.
Proof.
  unfold c_setting. rewrite lookup_insert_ne by discriminate.
  destruct (analysis idx_cfg).
  - apply lookup_insert_eq.
  - apply lookup_singleton_ne. discriminate.
Qed.

Lemma c_setting_other (self : IndexOptimizer) (idx_cfg : IndexConfig)
    (shards : Z) (k : string) :
  k <> "number_of_shards"%string -> k <> "number_of_replicas"%string ->
  k <> "analysis"%string ->
  c_setting self idx_cfg shards !! k = None.
Proof.
  intros H1 H2 H3. unfold c_setting.
  rewrite lookup_insert_ne by congruence.
  destruct (analysis idx_cfg).
  - rewrite lookup_insert_ne by congruence.
    apply lookup_singleton_ne. congruence.
  - apply lookup_singleton_ne. congruence.
Qed.

(** X12. The replacement index is created from the source's config as
    fetched inside the workflow: its mappings are the source's, its
    [number_of_shards] is the requested count, its [analysis] is the
    source's when the source has one and absent otherwise, and apart
    from these and [number_of_replicas] it is given no setting. *)
Theorem replacement_carries_config (es : Cluster) (self : IndexOptimizer)
    (index : string) (shards : Z) (w : World)
    (new_index : string) (c_mapping : option json)
    (settings : gmap string json) (timeout : option string) :
  IndexCreate new_index c_mapping (Some settings) timeout
    ∈ issued (index_replace es self index shards) w ->
  let idx_cfg := config_of es (log w ++ [IndexGetConfig index]) in
  c_mapping = Some (mappings idx_cfg) /\
  settings !! "number_of_shards" = Some (JInt shards) /\
  settings !! "analysis" = analysis idx_cfg /\
  (forall k : string,
     k <> "number_of_shards"%string -> k <> "number_of_replicas"%string ->
     k <> "analysis"%string -> settings !! k = None).
Proof.
  intros Hin idx_cfg.
  destruct (index_replace_cases es self index shards w)
    as [(_ & Hi & _) | (_ & x & _ & Hi & _)]; rewrite Hi in Hin.
  - elem_cases Hin. discriminate Hin.
  - unfold replace_calls in Hin. elem_cases Hin; try discriminate Hin.
    injection Hin as _ -> -> _.
    split; [reflexivity |]. split; [apply c_setting_shards |].
    split; [apply c_setting_analysis |]. apply c_setting_other.
Qed.

Lemma replacement_carries_config_witness :
  c_setting (optimizer 3 10) (config_of (steady 4 GiB 1 true) []) 1
    !! "number_of_shards" = Some (JInt 1).
Proof.
  apply (replacement_carries_config (steady 4 GiB 1 true) (optimizer 3 10)
           "logs" 1 fresh "uuid-0" (Some (JDict []))
           (c_setting (optimizer 3 10)
              (config_of (steady 4 GiB 1 true) []) 1)
           (Some "4m"%string)).
  apply list_elem_of_lookup. exists 1%nat. reflexivity.
Defined.

(** X13. In a replace workflow on a snapshot with data nodes, the reindex
    request names the source as source and the drawn name as
    destination, the alias request holds the single action that adds
    the source's name as an alias of the drawn name, and the force-merge
    request asks for one segment. *)
Theorem replace_bodies (baseurl : string) (health : gmap string pyval)
    (es : Cluster) (self : IndexOptimizer) (index : string) (shards : Z)
    (w : World) :
  _datanodes self <> 0 ->
  let calls := issued (index_replace es self index shards) w in
  let new_index := uuid_of es (drawn w) in
  exists reindex alias merge dr da pm,
    calls !! 3%nat = Some reindex /\
    calls !! 5%nat = Some alias /\
    calls !! 6%nat = Some merge /\
    data (request_of baseurl health reindex) = Some dr /\
    data (request_of baseurl health alias) = Some da /\
    params (request_of baseurl health merge) = Some pm /\
    dr !! "source" = Some (VJson (JDict [("index"%string, JStr index)])) /\
    dr !! "dest"
    = Some (VJson (JDict [("index"%string, JStr new_index)])) /\
    da !! "actions"
    = Some (VJson (JList [JDict [("add"%string,
                                  JDict [("index"%string, JStr new_index);
                                         ("alias"%string, JStr index)])]]))
    /\
    pm !! "max_num_segments" = Some (VInt 1).
Proof.
  intros HD. cbv zeta.
  destruct (index_replace_cases es self index shards w)
    as [(E & _) | (_ & x & _ & -> & _)]; [contradiction |].
  unfold replace_calls. cbn [lookup list_lookup].
  eexists _, _, _, _, _, _. repeat split.
Qed.

Lemma replace_bodies_witness :
  exists alias da,
    issued (index_replace (steady 4 GiB 1 true) (optimizer 3 10) "logs" 1)
      fresh !! 5%nat = Some alias /\
    data (request_of "http://es:9200" ∅ alias) = Some da /\
    da !! "actions"
    = Some (VJson (JList [JDict [("add"%string,
                                  JDict [("index"%string, JStr "uuid-0");
                                         ("alias"%string, JStr "logs")])]])).
Proof.
  destruct (replace_bodies "http://es:9200" ∅ (steady 4 GiB 1 true)
              (optimizer 3 10) "logs" 1 fresh)
    as (r & a & m & dr & da & pm & _ & Ha & _ & _ & Hd & _ & _ & _ & Hl & _).
  - vm_compute. discriminate.
  - exists a, da. split; [exact Ha |]. split; [exact Hd | exact Hl].
Defined.

(** X14. The driver fails in two situations only: it returns normally
    whenever the shard count it reads is not zero and the snapshot's
    data-node count is not zero. *)
Theorem driver_returns_normally (es : Cluster) (self : IndexOptimizer)
    (index : string) (w : World) :
  shards_seen es index w <> 0 ->
  _datanodes self <> 0 ->
  outcome (index_optimize_shards es self index) w = Ok tt.
Proof.
  intros Hs HD.
  assert (Hrep : forall n,
    outcome (index_replace es self index n) (fetched index w) = Ok tt).
  { intros n.
    destruct (index_replace_cases es self index n (fetched index w))
      as [(E & _) | (_ & x & _ & _ & Ho)]; [contradiction | exact Ho]. }
  destruct (driver_shapes es self index w)
    as [H | [(E & _) | [(_ & _ & H) | (_ & _ & H)]]].
  - apply (fetched_only es self index w _ H).
  - contradiction.
  - destruct (issued_handover es self index w _ H) as [_ ->]. apply Hrep.
  - destruct (issued_handover es self index w _ H) as [_ ->]. apply Hrep.
Qed.

Lemma driver_returns_normally_witness :
  outcome (index_optimize_shards (steady 4 GiB 1 false) (optimizer 3 10)
             "logs") fresh = Ok tt.
Proof.
  apply (driver_returns_normally (steady 4 GiB 1 false) (optimizer 3 10)
           "logs" fresh); vm_compute; discriminate.
Defined.
